(** * vantage6: the node's proxy server and the server's permission checks

    A shallow embedding of
    - [vantage6/joey/node/proxy_server.py]: the Flask views [proxy_task],
      [proxy_results], [proxy] and [test], with the routing table that
      the [@app.route] decorators build;
    - [vantage6/server/model/user.py]: [User.can];
    - [vantage6/server/resource/__init__.py]: the decorator [only_for].

    Python values that travel as JSON are a small inductive type, Python
    exceptions are values of [exn], and a view is a computation in a
    monad that threads the outside world, collects the events the view
    emits (HTTP calls, calls of the encryption provider, log records) in
    order, and ends in a value or in a raised exception. *)

From Stdlib Require Import String Ascii List ZArith Bool Lia.
Import ListNotations.
Local Open Scope string_scope.
Local Open Scope list_scope.
Set Warnings "-register-all".

(* ===================================================================== *)
(** ** Python values *)
(* ===================================================================== *)

(** What [request.get_json()] and [response.json()] produce.  [JNull] is
    Python's [None].  Numbers are the integers; a float is not needed by
    any view. *)
Inductive json : Type :=
| JNull
| JBool (b : bool)
| JNum (n : Z)
| JStr (s : string)
| JList (l : list json)
| JObj (d : list (string * json)).

(** Python truthiness, the test behind [if not x]. *)
Definition truthy (v : json) : bool :=
  match v with
  | JNull => false
  | JBool b => b
  | JNum n => negb (Z.eqb n 0)
  | JStr s => match s with EmptyString => false | String _ _ => true end
  | JList l => match l with [] => false | _ :: _ => true end
  | JObj d => match d with [] => false | _ :: _ => true end
  end.

(** A [dict] keeps insertion order; a key is looked up by equality. *)
Fixpoint dict_get (d : list (string * json)) (k : string) : option json :=
  match d with
  | [] => None
  | (k', v) :: d' => if String.eqb k' k then Some v else dict_get d' k
  end.

(** [d[k] = v]: an existing key keeps its place, a new one goes last. *)
Fixpoint dict_set (d : list (string * json)) (k : string) (v : json)
  : list (string * json) :=
  match d with
  | [] => [(k, v)]
  | (k', v') :: d' =>
      if String.eqb k' k then (k', v) :: d' else (k', v') :: dict_set d' k v
  end.

(** [d.get(k)], whose default is [None]. *)
Definition or_none (o : option json) : json :=
  match o with Some v => v | None => JNull end.

(** [organization.get("id", None)] and [organization.get("input", None)]
    of an entry, read without running the view. *)
Definition entry_id (organization : json) : json :=
  match organization with
  | JObj d => match dict_get d "id" with Some v => v | None => JNull end
  | _ => JNull
  end.

Definition entry_input (organization : json) : option json :=
  match organization with
  | JObj d => dict_get d "input"
  | _ => None
  end.

(** An f-string, kept symbolic: its literal text (with the [str]
    variables it interpolates) and the JSON values it formats, in order. *)
Inductive fpart : Type :=
| Lit (s : string)
| Fmt (v : json).

Definition fstring : Type := list fpart.

(** The exceptions the modelled code can raise.  All of them are
    subclasses of [Exception]. *)
Inductive exn : Type :=
| AssertionError (msg : string)
| KeyError (key : string)
| AttributeError (attr : string)
| TypeError (what : string)
| UnboundLocalError (var : string)
| RequestException (why : string)
| JSONDecodeError
| CryptoError (why : string)
| NoResultFound
| PyException (msg : fstring).

(* ===================================================================== *)
(** ** The outside world *)
(* ===================================================================== *)

Inductive http_method : Type := GET | POST | PATCH | PUT | DELETE.

(** One call of [requests.<method>(url, json=, params=, headers=)].
    [json=None], [params=None] and [headers=None] are the defaults of
    [requests]; a header whose value is [None] is a header [requests]
    does not send. *)
Record call : Type := mkCall {
  c_method : http_method;
  c_url : fstring;
  c_json : json;
  c_params : list (string * string);
  c_headers : list (string * option string)
}.

(** A [requests.Response]: the status code and what [.json()] gives
    ([None] when the body does not decode, and [.json()] raises). *)
Record response : Type := mkResponse {
  status_code : Z;
  body_json : option json
}.

Inductive level : Type := DEBUG | INFO | WARNING | ERROR.

Inductive event : Type :=
| EvHttp (c : call)
| EvEncrypt (plaintext key : json)
| EvLog (l : level) (msg : fstring)
| EvLogExn (l : level) (e : exn).

(** [joey.node.encryption.Cryptor] is not part of the modelled files:
    its [encrypt] is a field of the handle the node stores in
    [app.config["SERVER_IO"]]. *)
Record Cryptor : Type := mkCryptor {
  encrypt : json -> json -> exn + json
}.

Record ClientNodeProtocol : Type := mkServerIO {
  cryptor : Cryptor
}.

(** What Flask's [request] gives a view. *)
Record request : Type := mkRequest {
  method : string;
  path : string;
  headers : list (string * string);
  get_json : json;
  args : list (string * string)
}.

(** What a view returns: [jsonify(body)], or [None] after a bare
    [return]. *)
Inductive view_return : Type :=
| Jsonify (body : json)
| ReturnNone.

(* ===================================================================== *)
(** ** Header names *)
(* ===================================================================== *)

Definition lower_ascii (c : ascii) : ascii :=
  let n := nat_of_ascii c in
  if andb (Nat.leb 65 n) (Nat.leb n 90) then ascii_of_nat (n + 32) else c.

Fixpoint lower (s : string) : string :=
  match s with
  | EmptyString => EmptyString
  | String c s' => String (lower_ascii c) (lower s')
  end.

(** [request.headers[key]]: header names compare without case; the
    first match wins. *)
Fixpoint headers_find (h : list (string * string)) (key : string)
  : option string :=
  match h with
  | [] => None
  | (k, v) :: h' =>
      if String.eqb (lower k) (lower key) then Some v else headers_find h' key
  end.

(* ===================================================================== *)
(** ** The monad of a view *)
(* ===================================================================== *)

Section Relay.

(** The network: a state [W] and the answer to every outbound call,
    which is a response or an exception of [requests]. *)
Variable W : Type.
Variable send : W -> call -> (exn + response) * W.

(** [os.environ] of the proxy process. *)
Variable environ : string -> option string.

(** [app.config["SERVER_IO"]]; [None] until the node links it. *)
Variable SERVER_IO : option ClientNodeProtocol.

Definition M (A : Type) : Type := W -> (exn + A) * (W * list event).

Definition ret {A} (a : A) : M A := fun w => (inr a, (w, [])).

Definition raise {A} (e : exn) : M A := fun w => (inl e, (w, [])).

Definition bind {A B} (m : M A) (f : A -> M B) : M B :=
  fun w =>
    match m w with
    | (inl e, st) => (inl e, st)
    | (inr a, (w1, t1)) =>
        match f a w1 with
        | (r, (w2, t2)) => (r, (w2, t1 ++ t2))
        end
    end.

(** [try: m  except Exception as e: h e] *)
Definition try_except {A} (m : M A) (h : exn -> M A) : M A :=
  fun w =>
    match m w with
    | (inl e, (w1, t1)) =>
        match h e w1 with
        | (r, (w2, t2)) => (r, (w2, t1 ++ t2))
        end
    | (inr a, st) => (inr a, st)
    end.

Definition emit (e : event) : M unit := fun w => (inr tt, (w, [e])).

Definition lift {A} (r : exn + A) : M A := fun w => (r, (w, [])).

Notation "x <- m ;; k" := (bind m (fun x => k))
  (at level 61, m at next level, right associativity).
Notation "m ;;; k" := (bind m (fun _ => k))
  (at level 61, right associativity).

Definition log (l : level) (msg : fstring) : M unit := emit (EvLog l msg).
Definition log_exn (l : level) (e : exn) : M unit := emit (EvLogExn l e).

(** [requests.<method>(...)] *)
Definition requests (c : call) : M response :=
  fun w => let (r, w') := send w c in (r, (w', [EvHttp c])).

(** [response.json()] *)
Definition response_json (r : response) : M json :=
  match body_json r with
  | Some v => ret v
  | None => raise JSONDecodeError
  end.

(** [x.get(key, default)]: only a dict has [get]. *)
Definition py_get (x : json) (key : string) (default : json) : M json :=
  match x with
  | JObj d => ret (match dict_get d key with Some v => v | None => default end)
  | _ => raise (AttributeError "get")
  end.

(** [x[key] = v]: a dict takes any key; a list wants an integer index,
    anything else does not support item assignment. *)
Definition py_setitem (x : json) (key : string) (v : json) : M json :=
  match x with
  | JObj d => ret (JObj (dict_set d key v))
  | _ => raise (TypeError "item assignment")
  end.

(** [len(x)] *)
Definition py_len (x : json) : M Z :=
  match x with
  | JStr s => ret (Z.of_nat (String.length s))
  | JList l => ret (Z.of_nat (List.length l))
  | JObj d => ret (Z.of_nat (List.length d))
  | _ => raise (TypeError "len")
  end.

Fixpoint chars (s : string) : list json :=
  match s with
  | EmptyString => []
  | String c s' => JStr (String c EmptyString) :: chars s'
  end.

(** [for item in x]: a list gives its items, a dict its keys, a str its
    characters. *)
Definition py_iter (x : json) : M (list json) :=
  match x with
  | JList l => ret l
  | JObj d => ret (map (fun kv => JStr (fst kv)) d)
  | JStr s => ret (chars s)
  | _ => raise (TypeError "iter")
  end.

(** [os.environ[name]] *)
Definition os_environ (name : string) : M string :=
  match environ name with
  | Some v => ret v
  | None => raise (KeyError name)
  end.

(** [request.headers[key]] *)
Definition headers_getitem (rq : request) (key : string) : M string :=
  match headers_find (headers rq) key with
  | Some v => ret v
  | None => raise (KeyError key)
  end.

(* ===================================================================== *)
(** ** proxy_server.py *)
(* ===================================================================== *)

Definition base_url (url port path : string) : string :=
  (url ++ ":" ++ port ++ path)%string.

Definition server_info : M string :=
  url <- os_environ "SERVER_URL" ;;
  port <- os_environ "SERVER_PORT" ;;
  path <- os_environ "SERVER_PATH" ;;
  ret (base_url url port path).

(** The [requests.get] of the key lookup. *)
Definition organization_call (url : string) (organization_id : json) : call :=
  mkCall GET [Lit url; Lit "/organization/"; Fmt organization_id] JNull [] [].

(** The [requests.post] that creates the task. *)
Definition task_call (url auth : string) (json_data : json) : call :=
  mkCall POST [Lit url; Lit "/task"] json_data []
         [("Authorization", Some auth)].

(** The locals the loop of [proxy_task] writes: the list it appends to
    and [response], which is unbound before the first key lookup. *)
Record locals : Type := mkLocals {
  encrypted_organizations : list json;
  response_var : option response
}.

(** One turn of [for organization in organizations].  [inl v] is a
    [return v] out of the view; [inr l] goes on to the next turn. *)
Definition loop_body (server_io : ClientNodeProtocol) (url : string)
    (l : locals) (organization : json) : M (view_return + locals) :=
  input_ <- py_get organization "input" JNull ;;
  if negb (truthy input_) then
    log ERROR [Lit "No input for organization?!"] ;;;
    ret (inl ReturnNone)
  else
    organization_id <- py_get organization "id" JNull ;;
    log DEBUG [Lit "retreiving public key of org="; Fmt organization_id] ;;;
    response <- requests (organization_call url organization_id) ;;
    body <- response_json response ;;
    public_key <- py_get body "public_key" JNull ;;
    emit (EvEncrypt input_ public_key) ;;;
    encrypted_input <- lift (encrypt (cryptor server_io) input_ public_key) ;;
    log DEBUG [Lit "should be unreadable="; Fmt encrypted_input] ;;;
    organization' <- py_setitem organization "input" encrypted_input ;;
    log DEBUG [Lit "Input succesfully encrypted for organization ";
               Fmt organization_id; Lit "!"] ;;;
    ret (inr (mkLocals (encrypted_organizations l ++ [organization'])
                       (Some response))).

Fixpoint loop (server_io : ClientNodeProtocol) (url : string)
    (l : locals) (organizations : list json) : M (view_return + locals) :=
  match organizations with
  | [] => ret (inr l)
  | organization :: rest =>
      r <- loop_body server_io url l organization ;;
      match r with
      | inl v => ret (inl v)
      | inr l' => loop server_io url l' rest
      end
  end.

(** Reading a local: [UnboundLocalError] when it was never assigned. *)
Definition read_response (r : option response) : M response :=
  match r with
  | Some x => ret x
  | None => raise (UnboundLocalError "response")
  end.

Definition proxy_task (rq : request) : M view_return :=
  server_io <- match SERVER_IO with
               | Some io => ret io
               | None => raise (AssertionError "Server IO not initialized")
               end ;;
  url <- server_info ;;
  auth <- headers_getitem rq "Authorization" ;;
  let unencrypted := get_json rq in
  organizations <- py_get unencrypted "organizations" JNull ;;
  if negb (truthy organizations) then
    log ERROR [Lit "No organizations found?!"] ;;;
    ret ReturnNone
  else
    n_organizations <- py_len organizations ;;
    log DEBUG [Fmt (JNum n_organizations);
               Lit " organizations, attemping to encrypt"] ;;;
    items <- py_iter organizations ;;
    r <- loop server_io url (mkLocals [] None) items ;;
    match r with
    | inl v => ret v
    | inr l =>
        json_data <- py_setitem unencrypted "organizations"
                       (JList (encrypted_organizations l)) ;;
        response <- try_except
          (r <- requests (task_call url auth json_data) ;; ret (Some r))
          (fun e =>
             log ERROR [Lit "Proxyserver was unable to post new task!"] ;;;
             log_exn DEBUG e ;;;
             ret (response_var l)) ;;
        response <- read_response response ;;
        body <- response_json response ;;
        ret (Jsonify body)
    end.

Definition result_call (url auth : string) (id : Z) : call :=
  mkCall GET [Lit url; Lit "/result/"; Fmt (JNum id)] JNull []
         [("Authorization", Some auth)].

Definition proxy_results (rq : request) (id : Z) : M view_return :=
  url <- server_info ;;
  auth <- headers_getitem rq "Authorization" ;;
  response <- try_except
    (r <- requests (result_call url auth id) ;; ret (Some r))
    (fun e =>
       log ERROR [Lit "Proxyserver was unable to retrieve results!"] ;;;
       log_exn DEBUG e ;;;
       ret None) ;;
  response <- read_response response ;;
  body <- response_json response ;;
  ret (Jsonify body).

(** The dict of [proxy] with its [.get(method_name, requests.get)]. *)
Definition method_table (method_name : string) : http_method :=
  if String.eqb method_name "get" then GET
  else if String.eqb method_name "post" then POST
  else if String.eqb method_name "patch" then PATCH
  else if String.eqb method_name "put" then PUT
  else if String.eqb method_name "delete" then DELETE
  else GET.

Definition generic_call (m : http_method) (url central_server_path : string)
    (rq : request) (auth : option string) : call :=
  mkCall m [Lit url; Lit "/"; Lit central_server_path]
         (get_json rq) (args rq) [("Authorization", auth)].

Definition proxy (rq : request) (central_server_path : string)
  : M view_return :=
  url <- server_info ;;
  let method_name := lower (method rq) in
  let method := method_table method_name in
  af <- try_except
    (auth <- headers_getitem rq "Authorization" ;; ret (Some auth, true))
    (fun e =>
       log INFO
         [Lit "No authorization header found, this could lead to errors"] ;;;
       ret (None, false)) ;;
  let auth := fst af in
  let auth_found := snd af in
  log DEBUG [Lit "method = "; Lit method_name; Lit ", auth = ";
             Fmt (JBool auth_found)] ;;;
  let api_url := [Lit url; Lit "/"; Lit central_server_path] in
  log INFO (Lit method_name :: Lit " | " :: api_url) ;;;
  r <- try_except
    (r <- requests (generic_call method url central_server_path rq auth) ;;
     ret (Some r))
    (fun e =>
       log ERROR [Lit "Proxyserver was unable to retreive endpoint..."] ;;;
       log_exn DEBUG e ;;;
       ret None) ;;
  match r with
  | None => ret ReturnNone
  | Some response =>
      (if Z.ltb 200 (status_code response) then
         log ERROR [Lit "server response code ";
                    Fmt (JNum (status_code response))] ;;;
         body <- response_json response ;;
         msg <- py_get body "msg" (JStr "no description...") ;;
         log DEBUG [Fmt msg]
       else ret tt) ;;;
      body <- response_json response ;;
      ret (Jsonify body)
  end.

Definition test (rq : request) (central_server_path : string)
  : M view_return :=
  url <- server_info ;;
  response <- requests (mkCall GET [Lit (url ++ "/" ++ central_server_path)%string]
                               JNull [] []) ;;
  body <- response_json response ;;
  ret (Jsonify body).

(* ===================================================================== *)
(** ** A turn of the loop that goes through *)
(* ===================================================================== *)

(** The key lookup of an entry, as the loop sends it. *)
Definition lookup (url : string) (organization : json) : call :=
  organization_call url (entry_id organization).

(** From world [w], the entry [e] is looked up, encrypted and
    substituted: it is a dict with a truthy [input], the key lookup
    answers [resp] with a JSON object, and the provider encrypts the
    input under whatever that object has as [public_key]; [e'] is the
    entry with the ciphertext in place of the input. *)
Inductive entry_encrypted (io : ClientNodeProtocol) (url : string)
    (w : W) (e : json) (w' : W) (e' : json) (resp : response) : Prop :=
| entry_encrypted_intro (d body : list (string * json)) (input ct : json) :
    e = JObj d ->
    dict_get d "input" = Some input ->
    truthy input = true ->
    send w (lookup url e) = (inr resp, w') ->
    body_json resp = Some (JObj body) ->
    encrypt (cryptor io) input (or_none (dict_get body "public_key"))
      = inr ct ->
    e' = JObj (dict_set d "input" ct) ->
    entry_encrypted io url w e w' e' resp.

(** The same for a list of entries, one after the other. *)
Inductive all_encrypted (io : ClientNodeProtocol) (url : string)
  : W -> list json -> W -> list json -> Prop :=
| all_encrypted_nil (w : W) : all_encrypted io url w [] w []
| all_encrypted_cons (w w1 w2 : W) (e e' : json) (resp : response)
    (es es' : list json) :
    entry_encrypted io url w e w1 e' resp ->
    all_encrypted io url w1 es w2 es' ->
    all_encrypted io url w (e :: es) w2 (e' :: es').

(** The key lookup of entry [e] fails from world [w] with exception
    [ex]: the call raises, or the answer has no JSON body, or the body
    is not a JSON object. *)
Inductive lookup_fails (url : string) (w : W) (e : json) (w' : W)
  : exn -> Prop :=
| lookup_raises (ex : exn) :
    send w (lookup url e) = (inl ex, w') ->
    lookup_fails url w e w' ex
| lookup_without_json (resp : response) :
    send w (lookup url e) = (inr resp, w') ->
    body_json resp = None ->
    lookup_fails url w e w' JSONDecodeError
| lookup_without_object (resp : response) (b : json) :
    send w (lookup url e) = (inr resp, w') ->
    body_json resp = Some b ->
    (forall o, b <> JObj o) ->
    lookup_fails url w e w' (AttributeError "get").

(* ===================================================================== *)
(** ** The routes of the Flask app *)
(* ===================================================================== *)

(** What the app answers: what the matched view returned, or Flask's own
    answer when no view runs. *)
Inductive flask_result : Type :=
| ViewReturned (v : view_return)
| AutomaticOptions
| MethodNotAllowed
| NotFound.

Inductive endpoint : Type :=
| ep_proxy_task
| ep_proxy_results (id : Z)
| ep_proxy (central_server_path : string)
| ep_test (central_server_path : string).

(** [methods=] of [@app.route]; without it a rule listens to GET only.
    Flask adds HEAD to a rule that has GET, and OPTIONS to every rule. *)
Definition rule_methods (declared : option (list string)) : list string :=
  let ms := match declared with Some ms => ms | None => ["GET"] end in
  (if existsb (String.eqb "GET") ms then ms ++ ["HEAD"] else ms)
    ++ ["OPTIONS"].

Fixpoint strip_prefix (p s : string) : option string :=
  match p, s with
  | EmptyString, _ => Some s
  | String a p', String b s' =>
      if Ascii.eqb a b then strip_prefix p' s' else None
  | String _ _, EmptyString => None
  end.

Definition digit_of (c : ascii) : option Z :=
  let n := nat_of_ascii c in
  if andb (Nat.leb 48 n) (Nat.leb n 57) then Some (Z.of_nat (n - 48))
  else None.

Fixpoint parse_digits (acc : Z) (s : string) : option Z :=
  match s with
  | EmptyString => Some acc
  | String c s' =>
      match digit_of c with
      | Some d => parse_digits (acc * 10 + d) s'
      | None => None
      end
  end.

(** The converter [<int:...>]: one or more digits. *)
Definition int_converter (s : string) : option Z :=
  match s with
  | EmptyString => None
  | String _ _ => parse_digits 0 s
  end.

(** The converter [<path:...>]: not empty, no leading slash. *)
Definition path_converter (s : string) : option string :=
  match s with
  | EmptyString => None
  | String c _ => if Ascii.eqb c "/"%char then None else Some s
  end.

Definition opt_bind {A B} (o : option A) (f : A -> option B) : option B :=
  match o with Some a => f a | None => None end.

Definition opt_map {A B} (f : A -> B) (o : option A) : option B :=
  match o with Some a => Some (f a) | None => None end.

(** The four rules, in the order the URL map tries them: the rule
    without a variable part first, then the rules with a fixed first
    segment, the catch-all last. *)
Definition url_map : list ((string -> option endpoint) * list string) :=
  [ (fun p => if String.eqb p "/task" then Some ep_proxy_task else None,
     rule_methods (Some ["POST"]));
    (fun p => opt_map ep_proxy_results
                (opt_bind (strip_prefix "/result/" p) int_converter),
     rule_methods None);
    (fun p => opt_map ep_test
                (opt_bind (strip_prefix "/test/" p) path_converter),
     rule_methods None);
    (fun p => opt_map ep_proxy
                (opt_bind (strip_prefix "/" p) path_converter),
     rule_methods None) ].

Inductive matched : Type :=
| Matched (e : endpoint)
| WrongMethod
| NoRule.

(** A rule whose path matches but whose methods do not is remembered,
    and the next rule is tried. *)
Fixpoint match_rules (rules : list ((string -> option endpoint) * list string))
    (seen : bool) (m p : string) : matched :=
  match rules with
  | [] => if seen then WrongMethod else NoRule
  | (matcher, methods) :: rest =>
      match matcher p with
      | Some e =>
          if existsb (String.eqb m) methods then Matched e
          else match_rules rest true m p
      | None => match_rules rest seen m p
      end
  end.

Definition view (e : endpoint) (rq : request) : M view_return :=
  match e with
  | ep_proxy_task => proxy_task rq
  | ep_proxy_results id => proxy_results rq id
  | ep_proxy p => proxy rq p
  | ep_test p => test rq p
  end.

(** One request to the app. *)
Definition app (rq : request) : M flask_result :=
  match match_rules url_map false (method rq) (path rq) with
  | Matched e =>
      if String.eqb (method rq) "OPTIONS" then ret AutomaticOptions
      else v <- view e rq ;; ret (ViewReturned v)
  | WrongMethod => ret MethodNotAllowed
  | NoRule => ret NotFound
  end.

End Relay.

Arguments ret {W A} a w.
Arguments raise {W A} e w.
Arguments bind {W A B} m f w.
Arguments try_except {W A} m h w.

(* ===================================================================== *)
(** ** Reading a run *)
(* ===================================================================== *)

Definition result_of {W A} (r : (exn + A) * (W * list event)) : exn + A :=
  fst r.

Definition events_of {W A} (r : (exn + A) * (W * list event)) : list event :=
  snd (snd r).

Definition world_of {W A} (r : (exn + A) * (W * list event)) : W :=
  fst (snd r).

(** The outbound HTTP calls of a trace, in order. *)
Fixpoint http_calls (t : list event) : list call :=
  match t with
  | [] => []
  | EvHttp c :: t' => c :: http_calls t'
  | _ :: t' => http_calls t'
  end.

(** The [(plaintext, key)] pairs handed to the encryption provider. *)
Fixpoint encrypt_calls (t : list event) : list (json * json) :=
  match t with
  | [] => []
  | EvEncrypt p k :: t' => (p, k) :: encrypt_calls t'
  | _ :: t' => encrypt_calls t'
  end.

Fixpoint log_records (t : list event) : list (level * fstring) :=
  match t with
  | [] => []
  | EvLog l m :: t' => (l, m) :: log_records t'
  | _ :: t' => log_records t'
  end.

Definition is_post (c : call) : bool :=
  match c_method c with POST => true | _ => false end.


Arguments emit {W} e w.
Arguments lift {W A} r w.
Arguments log {W} l msg w.
Arguments log_exn {W} l e w.

Notation "x <- m ;; k" := (bind m (fun x => k))
  (at level 61, m at next level, right associativity).
Notation "m ;;; k" := (bind m (fun _ => k))
  (at level 61, right associativity).

(* ===================================================================== *)
(** ** server/model/user.py *)
(* ===================================================================== *)

(** Modelled from the spec: [vantage6/server/model/rule.py] is not among
    the files.  The two enums and the rule triple are those of the
    spec's data model. *)
Inductive Scope : Type := Global | Organization | Collaboration | Own.

Inductive Operation : Type := Create | Read | Update | Delete.

Definition Scope_eqb (a b : Scope) : bool :=
  match a, b with
  | Global, Global | Organization, Organization
  | Collaboration, Collaboration | Own, Own => true
  | _, _ => false
  end.

Definition Operation_eqb (a b : Operation) : bool :=
  match a, b with
  | Create, Create | Read, Read | Update, Update | Delete, Delete => true
  | _, _ => false
  end.

(** A row of the rule table: its primary key and its triple. *)
Record Rule : Type := mkRule {
  rule_id : Z;
  name : string;
  scope : Scope;
  operation : Operation
}.

Record Role : Type := mkRole {
  role_name : string;
  role_rules : list Rule
}.

(** The two relationships of [User] that [can] reads. *)
Record User : Type := mkUser {
  username : string;
  rules : list Rule;
  roles : list Role
}.

Definition has_triple (resource : string) (s : Scope) (o : Operation)
    (r : Rule) : bool :=
  String.eqb (name r) resource && Scope_eqb (scope r) s
    && Operation_eqb (operation r) o.

(** Modelled from the spec: [Rule.get_by_] is in the missing
    [model/rule.py]; the spec gives it as the rule-catalog query
    [ruleExists(resource, scope, operation) -> Rule | none].  [catalog]
    is the rule table. *)
Definition get_by_ (catalog : list Rule) (resource : string) (s : Scope)
    (o : Operation) : option Rule :=
  find (has_triple resource s o) catalog.

(** [rule in rules] for mapped objects: one session holds one object per
    primary key and objects compare by identity; [None] is in no list
    of rules. *)
Definition rule_in (rule : option Rule) (l : list Rule) : bool :=
  match rule with
  | None => false
  | Some r => existsb (fun x => Z.eqb (rule_id x) (rule_id r)) l
  end.

Definition can (catalog : list Rule) (self : User) (resource : string)
    (s : Scope) (o : Operation) : bool :=
  let rule := get_by_ catalog resource s o in
  rule_in rule (rules self)
  || existsb (fun role => rule_in rule (role_rules role)) (roles self).

(** The spec's [User.effectiveRules]: the direct rules and the rules of
    every role. *)
Definition effectiveRules (u : User) : list Rule :=
  rules u ++ flat_map role_rules (roles u).

(** The rule table as the database keeps it: the primary key is unique,
    and no two rows share a triple. *)
Definition unique_ids (catalog : list Rule) : Prop :=
  forall a b, In a catalog -> In b catalog -> rule_id a = rule_id b -> a = b.

Definition unique_triples (catalog : list Rule) : Prop :=
  forall a b, In a catalog -> In b catalog ->
    name a = name b -> scope a = scope b -> operation a = operation b ->
    a = b.

(** Every rule a user holds, directly or through a role, is a row of the
    rule table. *)
Definition from_catalog (catalog : list Rule) (u : User) : Prop :=
  forall r, In r (effectiveRules u) -> In r catalog.

(* ===================================================================== *)
(** ** server/resource/__init__.py *)
(* ===================================================================== *)

(** A row of [db.Authenticatable]: a user or a node. *)
Record Authenticatable : Type := mkAuthenticatable {
  id : Z;
  type : string;
  label : string;
  last_seen : Z
}.

(** Flask's [g] as [only_for] fills it. *)
Record G : Type := mkG {
  g_type : json;
  g_user : option Authenticatable;
  g_node : option Authenticatable;
  g_container : option json
}.

(** The state behind the decorator: the table of authenticatables. *)
Definition DB : Type := list Authenticatable.

(** Modelled from the spec: [db.Authenticatable.get] is in the missing
    [model/base.py]; the spec gives it as [lookupPrincipal(id) ->
    record].  A missing row raises. *)
Definition Authenticatable_get (auth_id : json) : M DB Authenticatable :=
  fun db =>
    match auth_id with
    | JNum i =>
        match find (fun a => Z.eqb (id a) i) db with
        | Some a => (inr a, (db, []))
        | None => (inl NoResultFound, (db, []))
        end
    | _ => (inl NoResultFound, (db, []))
    end.

(** Modelled from the spec: [auth.save()], the spec's
    [updateLastSeen(id, timestamp)]: the row with that id is replaced. *)
Definition save (auth : Authenticatable) : M DB unit :=
  fun db =>
    (inr tt,
     (map (fun a => if Z.eqb (id a) (id auth) then auth else a) db, [])).

Definition get_and_update_authenticatable_info (utcnow : Z) (auth_id : json)
  : M DB Authenticatable :=
  auth <- Authenticatable_get auth_id ;;
  let auth := mkAuthenticatable (id auth) (type auth) (label auth) utcnow in
  save auth ;;;
  ret auth.

(** [x[key]] on the identity of a container token. *)
Definition py_getitem {W} (x : json) (key : string) : M W json :=
  match x with
  | JObj d =>
      match dict_get d key with
      | Some v => ret v
      | None => raise (KeyError key)
      end
  | _ => raise (TypeError "subscript")
  end.

Definition py_assert {W} (b : bool) : M W unit :=
  if b then ret tt else raise (AssertionError "").

(** [g.type in types] and [g.type == 'user']: a claim that is not a
    string equals none. *)
Definition str_eq (v : json) (s : string) : bool :=
  match v with
  | JStr t => String.eqb t s
  | _ => false
  end.

(** The message of the rejection. *)
Definition not_allowed (g_type : json) (request_url request_method : string)
  : fstring :=
  [Fmt g_type; Lit "s are not allowed to access "; Lit request_url;
   Lit " ("; Lit request_method; Lit ")"].

(** The decorated view, after [jwt_required()] has accepted the token:
    [identity] is [get_jwt_identity()], [claims] is [get_jwt()],
    [request_url] and [request_method] are those of the request, [utcnow]
    is the clock, and [fn] is the view, which reads [g]. *)
Definition only_for {A} (types : list string) (fn : G -> M DB A)
    (identity : json) (claims : list (string * json))
    (request_url request_method : string) (utcnow : Z) : M DB A :=
  g_type <- match dict_get claims "client_type" with
            | Some v => ret v
            | None => raise (KeyError "client_type")
            end ;;
  if negb (existsb (str_eq g_type) types) then
    let msg := not_allowed g_type request_url request_method in
    log WARNING msg ;;;
    raise (PyException msg)
  else if str_eq g_type "user" then
    user <- get_and_update_authenticatable_info utcnow identity ;;
    py_assert (str_eq g_type (type user)) ;;;
    log DEBUG [Lit "Received request from user "; Lit (label user);
               Lit " ("; Fmt (JNum (id user)); Lit ")"] ;;;
    fn (mkG g_type (Some user) None None)
  else if str_eq g_type "node" then
    node <- get_and_update_authenticatable_info utcnow identity ;;
    py_assert (str_eq g_type (type node)) ;;;
    log DEBUG [Lit "Received request from node "; Lit (label node);
               Lit " ("; Fmt (JNum (id node)); Lit ")"] ;;;
    fn (mkG g_type None (Some node) None)
  else if str_eq g_type "container" then
    node_id <- py_getitem identity "node_id" ;;
    task_id <- py_getitem identity "task_id" ;;
    log DEBUG [Lit "Received request from container with node id ";
               Fmt node_id; Lit " and task id "; Fmt task_id] ;;;
    fn (mkG g_type None None (Some identity))
  else
    raise (PyException [Lit "Unknown entity: "; Fmt g_type]).

Definition with_user_or_node {A} := @only_for A ["user"; "node"].
Definition with_user {A} := @only_for A ["user"].
Definition with_node {A} := @only_for A ["node"].
Definition with_container {A} := @only_for A ["container"].

(** The first log record of a create-task request that has entries. *)
Definition announce (organizations : list json) : event :=
  EvLog DEBUG [Fmt (JNum (Z.of_nat (length organizations)));
               Lit " organizations, attemping to encrypt"].

(** The payload [proxy_task] posts once the loop has run to its end. *)
Definition forwarded (d : list (string * json)) (organizations' : list json)
  : json :=
  JObj (dict_set d "organizations" (JList organizations')).

(** An entry the loop refuses: [organization.get("input", None)] is
    falsy, or the entry is no dict at all. *)
Definition refused (organization : json) : Prop :=
  truthy (or_none (entry_input organization)) = false.

(** [e'] is [e] with a ciphertext of its input in place of the input. *)
Definition ciphertext_of (io : ClientNodeProtocol) (e e' : json) : Prop :=
  exists plaintext key ct,
    entry_input e = Some plaintext /\
    encrypt (cryptor io) plaintext key = inr ct /\
    entry_input e' = Some ct.

(** The outbound call of the generic forward for a request. *)
Definition proxied (url : string) (rq : request)
    (central_server_path : string) : call :=
  generic_call (method_table (lower (method rq))) url central_server_path rq
    (headers_find (headers rq) "Authorization").

(** A run that comes after the events [t]. *)
Definition and_then {W A} (t : list event)
    (run : (exn + A) * (W * list event)) : (exn + A) * (W * list event) :=
  match run with
  | (r, (w, t2)) => (r, (w, t ++ t2))
  end.

(* ===================================================================== *)
(** ** A small deployment to run the views on *)
(* ===================================================================== *)

Module Demo.

Definition environ (name : string) : option string :=
  if String.eqb name "SERVER_URL" then Some "http://server"
  else if String.eqb name "SERVER_PORT" then Some "5000"
  else if String.eqb name "SERVER_PATH" then Some "/api"
  else None.

Definition base : string := "http://server:5000/api".

(** A toy cipher: every character moves one place up, under the key's
    name; an absent key is taken as the empty name. *)
Fixpoint shift (s : string) : string :=
  match s with
  | EmptyString => EmptyString
  | String c s' => String (ascii_of_nat (S (nat_of_ascii c))) (shift s')
  end.

Definition seal (plaintext key : json) : exn + json :=
  match plaintext with
  | JStr p =>
      match key with
      | JStr k => inr (JStr (k ++ ":" ++ shift p)%string)
      | _ => inr (JStr (":" ++ shift p)%string)
      end
  | _ => inl (CryptoError "plaintext")
  end.

Definition server_io : ClientNodeProtocol := mkServerIO (mkCryptor seal).

(** A coordinator that knows organizations 1 and 2, accepts every task
    and has result 42.  Its state counts the calls it has answered. *)
Definition send (w : nat) (c : call) : (exn + response) * nat :=
  (match c_method c, c_url c with
   | GET, [Lit _; Lit "/organization/"; Fmt (JNum 1)] =>
       inr (mkResponse 200 (Some (JObj [("id", JNum 1);
                                        ("public_key", JStr "pubA")])))
   | GET, [Lit _; Lit "/organization/"; Fmt (JNum 2)] =>
       inr (mkResponse 200 (Some (JObj [("id", JNum 2);
                                        ("public_key", JStr "pubB")])))
   | GET, [Lit _; Lit "/organization/"; Fmt _] =>
       inr (mkResponse 404 (Some (JObj [("msg", JStr "not found")])))
   | POST, [Lit _; Lit "/task"] =>
       inr (mkResponse 201 (Some (JObj [("id", JNum 7);
                                        ("sent", c_json c)])))
   | GET, [Lit _; Lit "/result/"; Fmt (JNum 42)] =>
       inr (mkResponse 200 (Some (JObj [("result", JStr "done")])))
   | _, [Lit _; Lit "/"; Lit p] =>
       inr (mkResponse 200 (Some (JObj [("path", JStr p)])))
   | _, _ => inl (RequestException "no route")
   end, S w).

(** A coordinator that cannot be reached. *)
Definition down (w : nat) (c : call) : (exn + response) * nat :=
  (inl (RequestException "connection refused"), S w).

Definition organization (i : Z) (input : string) : json :=
  JObj [("id", JNum i); ("input", JStr input)].

Definition payload (organizations : list json) : list (string * json) :=
  [("name", JStr "sum"); ("organizations", JList organizations)].

Definition task_request (organizations : list json) : request :=
  mkRequest "POST" "/task" [("Authorization", "Bearer t0k3n")]
            (JObj (payload organizations)) [].

(** The same request without the [organizations] field. *)
Definition bare_request : request :=
  mkRequest "POST" "/task" [("Authorization", "Bearer t0k3n")]
            (JObj [("name", JStr "sum")]) [].

Definition result_request : request :=
  mkRequest "GET" "/result/42" [("Authorization", "Bearer t0k3n")] JNull [].

(** A request to the generic forward that carries no credential. *)
Definition anonymous_request : request :=
  mkRequest "GET" "/collaboration" [("Accept", "application/json")] JNull
            [("page", "2")].

(** A rule table, a role and a user. *)
Definition view_task : Rule := mkRule 1 "task" Organization Read.
Definition create_task : Rule := mkRule 2 "task" Organization Create.
Definition view_any_task : Rule := mkRule 3 "task" Global Read.
Definition delete_node : Rule := mkRule 4 "node" Global Delete.

Definition catalog : list Rule :=
  [view_task; create_task; view_any_task; delete_node].

Definition researcher : Role := mkRole "researcher" [create_task].

Definition alice : User := mkUser "alice" [view_task] [researcher].

End Demo.

(* ===================================================================== *)
(** ** server/model/user.py: passwords and blocking *)
(* ===================================================================== *)

(** A Python [str]: its code points. *)
Definition pystr : Type := list N.

(** The columns of [User] that the password functions read and write.
    [password] holds the hash, [last_login_attempt] a [datetime] in
    microseconds; [None] is a NULL column. *)
Record Login : Type := mkLogin {
  password : option string;
  failed_login_attempts : option Z;
  last_login_attempt : option Z
}.

Definition in_range (lo hi c : N) : bool := (N.leb lo c && N.leb c hi)%bool.

(** The classes [[0-9]], [[A-Z]] and [[a-z]] of the three patterns. *)
Definition is_digit : N -> bool := in_range 48 57.
Definition is_upper : N -> bool := in_range 65 90.
Definition is_lower : N -> bool := in_range 97 122.

(** [re.search(pattern, pw) is not None] for a one-character class. *)
Definition re_search (class : N -> bool) (pw : pystr) : bool :=
  existsb class pw.

Section Passwords.

(** [str.isalnum] of one character beyond ASCII: the Unicode database. *)
Variable unicode_isalnum : N -> bool.

(** [self.hash], of the missing [model/authenticatable.py], and
    [bcrypt.checkpw] on the encoded strings. *)
Variable hash : pystr -> string.
Variable checkpw : pystr -> string -> bool.

Definition char_isalnum (c : N) : bool :=
  if N.ltb c 128 then (is_digit c || is_upper c || is_lower c)%bool
  else unicode_isalnum c.

(** [pw.isalnum()]: every character is, and there is at least one. *)
Definition isalnum (pw : pystr) : bool :=
  match pw with
  | [] => false
  | _ :: _ => forallb char_isalnum pw
  end.

Definition too_short : string :=
  "Password too short: use at least 8 characters with mixed lowercase, uppercase, numbers and special characters".

(** [set_password]: the message it returns ([None] when the password is
    taken), the row afterwards, and whether [save] was called.  The
    assignment to [self.password] goes through [_validate_password],
    which stores the hash. *)
Definition set_password (self : Login) (pw : pystr)
  : option string * Login * bool :=
  let len := Z.of_nat (length pw) in
  if Z.ltb len 8 then (Some too_short, self, false)
  else if Z.ltb 128 len then
    (Some "Password too long: use at most 128 characters", self, false)
  else if negb (re_search is_digit pw) then
    (Some "Password should contain at least one number", self, false)
  else if negb (re_search is_upper pw) then
    (Some "Password should contain at least one uppercase letter", self,
     false)
  else if negb (re_search is_lower pw) then
    (Some "Password should contain at least one lowercase letter", self,
     false)
  else if isalnum pw then
    (Some "Password should contain at least one special character", self,
     false)
  else
    (None,
     mkLogin (Some (hash pw)) (failed_login_attempts self)
             (last_login_attempt self),
     true).

Definition check_password (self : Login) (pw : pystr) : bool :=
  match password self with
  | Some expected_hash => checkpw pw expected_hash
  | None => false
  end.

End Passwords.

(** A [timedelta] is a number of microseconds between
    -999999999 days and 999999999 days 23:59:59.999999; building one
    outside raises [OverflowError]. *)
Definition day : Z := 86400000000%Z.

(** What [is_blocked] can raise: [OverflowError] of [timedelta], and
    the [TypeError] of comparing [None] with a [timedelta]. *)
Inductive time_error : Type :=
| OverflowError
| NoneCompared.

Definition timedelta (microseconds : Z) : time_error + Z :=
  if (Z.leb (- 999999999 * day)%Z microseconds
      && Z.ltb microseconds (1000000000 * day)%Z)%bool
  then inr microseconds
  else inl OverflowError.

(** [td.seconds]: the seconds within the day of the normalized value. *)
Definition seconds (td : Z) : Z := ((td mod day) / 1000000)%Z.

(** [is_blocked]; [now] is [datetime.now()], in microseconds like
    [last_login_attempt].  Two datetimes are never far enough apart for
    their difference to overflow. *)
Definition is_blocked (self : Login) (now : Z)
    (max_failed_attempts inactivation_in_minutes : Z)
  : time_error + (bool * option Z) :=
  match timedelta (inactivation_in_minutes * 60000000)%Z with
  | inl e => inl e
  | inr td_max_blocked =>
      let td_last_login :=
        match last_login_attempt self with
        | Some t => Some (now - t)%Z
        | None => None
        end in
      let has_max_attempts :=
        match failed_login_attempts self with
        | Some n =>
            if Z.eqb n 0 then false else Z.leb max_failed_attempts n
        | None => false
        end in
      if has_max_attempts then
        match td_last_login with
        | None => inl NoneCompared
        | Some td =>
            if Z.ltb td td_max_blocked then
              match timedelta (td_max_blocked - td)%Z with
              | inl e => inl e
              | inr remaining =>
                  inr (true, Some (seconds remaining / 60 + 1)%Z)
              end
            else inr (false, None)
        end
      else inr (false, None)
  end.

(* ===================================================================== *)
(** ** server/resource/__init__.py: what a view reads from [g] *)
(* ===================================================================== *)

(** What [obtain_auth] returns: a user or node row, or the dict of a
    container. *)
Inductive auth_value : Type :=
| AuthRow (a : Authenticatable)
| AuthDict (identity : json).

(** [ServicesResources.obtain_auth]: a mapped object is truthy, a dict
    is truthy when it has a key; the function falls off its end, and
    returns [None], when none of the three is. *)
Definition obtain_auth (g : G) : option auth_value :=
  match g_user g with
  | Some u => Some (AuthRow u)
  | None =>
      match g_node g with
      | Some n => Some (AuthRow n)
      | None =>
          match g_container g with
          | Some c => if truthy c then Some (AuthDict c) else None
          | None => None
          end
      end
  end.

(** [ServicesResources.obtain_organization_id].  [organization] is the
    relationship of a row to its organization's id, [None] for a row
    without organization. *)
Definition obtain_organization_id {W}
    (organization : Authenticatable -> option Z) (g : G) : M W json :=
  let of_row (a : Authenticatable) : M W json :=
    match organization a with
    | Some i => ret (JNum i)
    | None => raise (AttributeError "id")
    end in
  match g_user g with
  | Some u => of_row u
  | None =>
      match g_node g with
      | Some n => of_row n
      | None =>
          match g_container g with
          | Some c => py_getitem c "organization_id"
          | None => raise (TypeError "subscript")
          end
      end
  end.

(** The methods of a rule declared without [methods=]. *)
Definition get_like (m : string) : Prop :=
  m = "GET" \/ m = "HEAD" \/ m = "OPTIONS".

(** The table after [save] of the row with the clock put in. *)
Definition seen (utcnow : Z) (row : Authenticatable) (db : DB) : DB :=
  map (fun a =>
         if Z.eqb (id a) (id row)
         then mkAuthenticatable (id row) (type row) (label row) utcnow
         else a) db.

(** The keys of a dict, in order. *)
Definition keys (d : list (string * json)) : list string := map fst d.

(* ===================================================================== *)
(** ** Samples to run the other functions on *)
(* ===================================================================== *)

Module Sample.

(** A coordinator that answers key lookups and is lost when a task is
    posted. *)
Definition send_no_task (w : nat) (c : call) : (exn + response) * nat :=
  match c_method c with
  | POST => (inl (RequestException "timeout"), S w)
  | _ => Demo.send w c
  end.


(** The code points of [Passw0rd!]. *)
Definition strong : pystr := [80; 97; 115; 115; 119; 48; 114; 100; 33]%N.

Definition no_unicode (c : N) : bool := false.

(** A stand-in for bcrypt: the password itself behind a mark. *)
Definition toy_hash (pw : pystr) : string :=
  fold_right (fun c s => String (ascii_of_N c) s) "$" pw.

Definition toy_checkpw (pw : pystr) (h : string) : bool :=
  String.eqb (toy_hash pw) h.

(** A row with five failed attempts, the last one at time 0. *)
Definition locked : Login := mkLogin None (Some 5%Z) (Some 0%Z).

(** The same without a last attempt. *)
Definition never_tried : Login := mkLogin None (Some 5%Z) None.

Definition table : DB :=
  [mkAuthenticatable 7 "node" "node-7" 0;
   mkAuthenticatable 8 "user" "alice" 0].

Definition bob : User :=
  mkUser "bob" [Demo.view_task; Demo.create_task; Demo.delete_node] [].

End Sample.

(* ===================================================================== *)
(** ** Facts about traces *)
(* ===================================================================== *)

Lemma http_calls_app (t1 t2 : list event) :
  http_calls (t1 ++ t2) = http_calls t1 ++ http_calls t2.
Proof.
  induction t1 as [|[c|p k|l m|l e] t1 IH]; simpl; rewrite ?IH; reflexivity.
Qed.

Lemma encrypt_calls_app (t1 t2 : list event) :
  encrypt_calls (t1 ++ t2) = encrypt_calls t1 ++ encrypt_calls t2.
Proof.
  induction t1 as [|[c|p k|l m|l e] t1 IH]; simpl; rewrite ?IH; reflexivity.
Qed.

Lemma log_records_app (t1 t2 : list event) :
  log_records (t1 ++ t2) = log_records t1 ++ log_records t2.
Proof.
  induction t1 as [|[c|p k|l m|l e] t1 IH]; simpl; rewrite ?IH; reflexivity.
Qed.

Lemma dict_get_set (d : list (string * json)) (k : string) (v : json) :
  dict_get (dict_set d k v) k = Some v.
Proof.
  induction d as [|[k' v'] d IH]; simpl.
  - now rewrite String.eqb_refl.
  - destruct (String.eqb k' k) eqn:E; simpl; rewrite E; auto.
Qed.

Lemma dict_get_set_other (d : list (string * json)) (k k' : string) (v : json) :
  k <> k' -> dict_get (dict_set d k v) k' = dict_get d k'.
Proof.
  intros Hk. induction d as [|[k0 v0] d IH]; simpl.
  - destruct (String.eqb_spec k k'); [contradiction|reflexivity].
  - destruct (String.eqb_spec k0 k) as [->|]; simpl.
    + destruct (String.eqb_spec k k'); [contradiction|reflexivity].
    + now rewrite IH.
Qed.

(* ===================================================================== *)
(** ** Facts about the monad *)
(* ===================================================================== *)

Section MonadFacts.

Context {W : Type}.

Lemma bind_inr {A B} (m : M W A) (f : A -> M W B) (w w1 : W) (a : A)
    (t1 : list event) :
  m w = (inr a, (w1, t1)) -> bind m f w = and_then t1 (f a w1).
Proof. intros H. unfold bind, and_then. now rewrite H. Qed.

Lemma bind_inl {A B} (m : M W A) (f : A -> M W B) (w : W) (e : exn)
    (st : W * list event) :
  m w = (inl e, st) -> bind m f w = (inl e, st).
Proof. intros H. unfold bind. now rewrite H. Qed.

Lemma try_inr {A} (m : M W A) (h : exn -> M W A) (w : W) (a : A)
    (st : W * list event) :
  m w = (inr a, st) -> try_except m h w = (inr a, st).
Proof. intros H. unfold try_except. now rewrite H. Qed.

Lemma try_inl {A} (m : M W A) (h : exn -> M W A) (w w1 : W) (e : exn)
    (t1 : list event) :
  m w = (inl e, (w1, t1)) -> try_except m h w = and_then t1 (h e w1).
Proof. intros H. unfold try_except, and_then. now rewrite H. Qed.

Lemma and_then_nil {A} (run : (exn + A) * (W * list event)) :
  and_then [] run = run.
Proof. now destruct run as [r [w t]]. Qed.

Lemma and_then_and_then {A} (t1 t2 : list event)
    (run : (exn + A) * (W * list event)) :
  and_then t1 (and_then t2 run) = and_then (t1 ++ t2) run.
Proof. destruct run as [r [w t]]. simpl. now rewrite app_assoc. Qed.

Lemma events_of_and_then {A} (t : list event)
    (run : (exn + A) * (W * list event)) :
  events_of (and_then t run) = t ++ events_of run.
Proof. now destruct run as [r [w t2]]. Qed.

Lemma result_of_and_then {A} (t : list event)
    (run : (exn + A) * (W * list event)) :
  result_of (and_then t run) = result_of run.
Proof. now destruct run as [r [w t2]]. Qed.

End MonadFacts.

(* ===================================================================== *)
(** ** Facts about the relay *)
(* ===================================================================== *)

Section RelayFacts.

Variable W : Type.
Variable send : W -> call -> (exn + response) * W.
Variable environ : string -> option string.
Variable io : ClientNodeProtocol.

(** The node has set the three variables [server_info] reads. *)
Variables env_url env_port env_path : string.
Hypothesis environ_url : environ "SERVER_URL" = Some env_url.
Hypothesis environ_port : environ "SERVER_PORT" = Some env_port.
Hypothesis environ_path : environ "SERVER_PATH" = Some env_path.

Local Abbreviation url := (base_url env_url env_port env_path).

Lemma server_info_run (w : W) :
  server_info W environ w = (inr url, (w, [])).
Proof using environ_url environ_port environ_path.
  unfold server_info, bind, os_environ.
  rewrite environ_url, environ_port, environ_path. reflexivity.
Qed.

(** What one turn of the loop does, case by case. *)
Lemma loop_body_run (u : string) (l : locals) (e : json) (w : W) :
  loop_body W send io u l e w =
  match e with
  | JObj d =>
      let input_ := or_none (dict_get d "input") in
      if truthy input_ then
        let pre := [EvLog DEBUG [Lit "retreiving public key of org=";
                                 Fmt (entry_id e)];
                    EvHttp (lookup u e)] in
        match send w (lookup u e) with
        | (inl ex, w') => (inl ex, (w', pre))
        | (inr resp, w') =>
            match body_json resp with
            | None => (inl JSONDecodeError, (w', pre))
            | Some (JObj b) =>
                let key := or_none (dict_get b "public_key") in
                match encrypt (cryptor io) input_ key with
                | inl ex => (inl ex, (w', pre ++ [EvEncrypt input_ key]))
                | inr ct =>
                    (inr (inr (mkLocals
                                 (encrypted_organizations l
                                    ++ [JObj (dict_set d "input" ct)])
                                 (Some resp))),
                     (w', pre ++
                          [EvEncrypt input_ key;
                           EvLog DEBUG [Lit "should be unreadable="; Fmt ct];
                           EvLog DEBUG
                             [Lit "Input succesfully encrypted for organization ";
                              Fmt (entry_id e); Lit "!"]]))
                end
            | Some _ => (inl (AttributeError "get"), (w', pre))
            end
        end
      else (inr (inl ReturnNone),
            (w, [EvLog ERROR [Lit "No input for organization?!"]]))
  | _ => (inl (AttributeError "get"), (w, []))
  end.
Proof.
  destruct e; try reflexivity.
  unfold loop_body, lookup, entry_id, or_none, bind, py_get, ret, raise,
    requests, response_json, emit, lift, log, py_setitem; simpl.
  destruct (dict_get d "input") as [input_|]; simpl; [|reflexivity].
  destruct (truthy input_); simpl; [|reflexivity].
  destruct (send w _) as [[ex|resp] w']; simpl; [reflexivity|].
  destruct (body_json resp) as [[| | | | |b]|]; simpl; try reflexivity.
  destruct (encrypt (cryptor io) input_ _) as [ex|ct]; reflexivity.
Qed.

(** A turn goes on to the next one exactly when the entry was looked up,
    encrypted and substituted. *)
Lemma loop_body_continues (u : string) (l l' : locals) (e : json) (w w' : W)
    [t : list event] :
  loop_body W send io u l e w = (inr (inr l'), (w', t)) ->
  exists e' resp,
    entry_encrypted W send io u w e w' e' resp /\
    l' = mkLocals (encrypted_organizations l ++ [e']) (Some resp) /\
    http_calls t = [lookup u e] /\
    length (encrypt_calls t) = 1%nat.
Proof.
  rewrite loop_body_run. destruct e; try discriminate.
  cbv zeta. destruct (dict_get d "input") as [input_|] eqn:Hin; simpl;
    [|discriminate].
  destruct (truthy input_) eqn:Ht; [|discriminate].
  destruct (send w _) as [[ex|resp] w1] eqn:Hs; [discriminate|].
  destruct (body_json resp) as [[| | | | |b]|] eqn:Hb; try discriminate.
  destruct (encrypt _ _ _) as [ex|ct] eqn:He; [discriminate|].
  intros H. injection H as <- <- <-.
  exists (JObj (dict_set d "input" ct)), resp. repeat split.
  econstructor; eauto.
Qed.

Lemma entry_encrypted_loop_body [u : string] (l : locals) [e e' : json]
    [w w' : W] [resp : response] :
  entry_encrypted W send io u w e w' e' resp ->
  exists t,
    loop_body W send io u l e w =
      (inr (inr (mkLocals (encrypted_organizations l ++ [e']) (Some resp))),
       (w', t)) /\
    http_calls t = [lookup u e] /\
    length (encrypt_calls t) = 1%nat.
Proof.
  intros [d body input ct -> Hin Ht Hs Hb He ->].
  rewrite loop_body_run. cbv zeta. rewrite Hin. simpl. rewrite Ht, Hs, Hb, He.
  eexists. repeat split.
Qed.

(** A turn makes at most its own key lookup, and hands at most its own
    input to the provider, after the lookup. *)
Lemma loop_body_calls (u : string) (l : locals) (e : json) (w : W) :
  let run := loop_body W send io u l e w in
  (http_calls (events_of run) = [] /\ encrypt_calls (events_of run) = []) \/
  (http_calls (events_of run) = [lookup u e] /\
   (length (encrypt_calls (events_of run)) <= 1)%nat).
Proof.
  cbv zeta. rewrite loop_body_run. destruct e; simpl; auto.
  destruct (truthy _); simpl; auto.
  destruct (send w _) as [[ex|resp] w1]; simpl; auto.
  destruct (body_json resp) as [[| | | | |b]|]; simpl; auto.
  destruct (encrypt _ _ _) as [ex|ct]; simpl; auto.
Qed.

(** The loop over [pre ++ rest] is the loop over [pre], then over
    [rest] if [pre] went through. *)
Lemma loop_app (u : string) (pre rest : list json) (l : locals) (w : W) :
  loop W send io u l (pre ++ rest) w =
  match loop W send io u l pre w with
  | (inr (inr l1), (w1, t1)) =>
      match loop W send io u l1 rest w1 with
      | (r, (w2, t2)) => (r, (w2, t1 ++ t2))
      end
  | other => other
  end.
Proof.
  revert l w. induction pre as [|e pre IH]; intros l w.
  - simpl. unfold ret. now destruct (loop W send io u l rest w) as [r [w2 t2]].
  - simpl. unfold bind.
    destruct (loop_body W send io u l e w) as [[ex|[v|l1]] [w1 t1]];
      try reflexivity.
    rewrite IH.
    destruct (loop W send io u l1 pre w1) as [[ex|[v|l2]] [w2 t2]];
      try reflexivity.
    destruct (loop W send io u l2 rest w2) as [r [w3 t3]].
    now rewrite app_assoc.
Qed.

(** Entries that all go through: the loop returns them, in order, with
    one key lookup and one encryption each. *)
Lemma all_encrypted_loop [u : string] [es es' : list json] [w w' : W] :
  all_encrypted W send io u w es w' es' ->
  forall l, exists t r,
    loop W send io u l es w =
      (inr (inr (mkLocals (encrypted_organizations l ++ es') r)), (w', t)) /\
    http_calls t = map (lookup u) es /\
    length (encrypt_calls t) = length es /\
    (es = [] -> r = response_var l) /\
    (es <> [] -> exists resp, r = Some resp).
Proof.
  induction 1 as [w|w w1 w2 e e' resp es es' He Hes IH]; intros l.
  - exists [], (response_var l). simpl. rewrite app_nil_r.
    destruct l; repeat split; auto. congruence.
  - destruct (entry_encrypted_loop_body l He) as (t1 & Hrun & Hc & Hk).
    destruct (IH (mkLocals (encrypted_organizations l ++ [e']) (Some resp)))
      as (t2 & r & Hloop & Hc2 & Hk2 & Hnil & Hcons).
    simpl in Hloop. rewrite <- app_assoc in Hloop. simpl in Hloop.
    exists (t1 ++ t2), r. simpl. unfold bind. rewrite Hrun, Hloop.
    rewrite http_calls_app, encrypt_calls_app, length_app, Hc, Hc2, Hk, Hk2.
    repeat split; try discriminate.
    intros _. destruct es as [|e0 es0].
    + exists resp. now apply Hnil.
    + apply Hcons. discriminate.
Qed.

(** Conversely, when the loop runs to its end, every entry went through. *)
Lemma loop_completes (u : string) (es : list json) (l l' : locals)
    (w w' : W) (t : list event) :
  loop W send io u l es w = (inr (inr l'), (w', t)) ->
  exists es',
    all_encrypted W send io u w es w' es' /\
    encrypted_organizations l' = encrypted_organizations l ++ es' /\
    http_calls t = map (lookup u) es.
Proof.
  revert l w t. induction es as [|e es IH]; intros l w t.
  - simpl. unfold ret. intros H. injection H as <- <- <-.
    exists []. rewrite app_nil_r. repeat split. constructor.
  - simpl. unfold bind.
    destruct (loop_body W send io u l e w) as [[ex|[v|l1]] [w1 t1]] eqn:Hb;
      try discriminate.
    destruct (loop W send io u l1 es w1) as [r [w2 t2]] eqn:Hl.
    intros H. injection H as -> <- <-.
    destruct (loop_body_continues _ _ _ _ _ _ Hb) as (e' & resp & He & -> & Hc & _).
    destruct (IH _ _ _ Hl) as (es' & Hes & Henc & Hc2).
    exists (e' :: es'). simpl in Henc. rewrite <- app_assoc in Henc.
    rewrite http_calls_app, Hc, Hc2. repeat split; auto.
    econstructor; eauto.
Qed.

(** However the loop ends, its key lookups are those of the first [n]
    entries, in order, and it encrypts no more than [n] inputs. *)
Lemma loop_calls_prefix (u : string) (es : list json) (l : locals) (w : W) :
  let run := loop W send io u l es w in
  exists n, (n <= length es)%nat /\
    http_calls (events_of run) = map (lookup u) (firstn n es) /\
    (length (encrypt_calls (events_of run)) <= n)%nat.
Proof.
  cbv zeta. revert l w. induction es as [|e es IH]; intros l w.
  - exists 0%nat. simpl. auto.
  - simpl. unfold bind.
    pose proof (loop_body_calls u l e w) as Hcalls. cbv zeta in Hcalls.
    destruct (loop_body W send io u l e w) as [[ex|[v|l1]] [w1 t1]] eqn:Hb.
    + unfold events_of in *; simpl in *.
      destruct Hcalls as [[-> ->]|[-> Hk]].
      * exists 0%nat. simpl. repeat split; lia.
      * exists 1%nat. simpl. repeat split; lia.
    + unfold events_of in *; simpl in *. rewrite app_nil_r.
      destruct Hcalls as [[-> ->]|[-> Hk]].
      * exists 0%nat. simpl. repeat split; lia.
      * exists 1%nat. simpl. repeat split; lia.
    + destruct (loop_body_continues _ _ _ _ _ _ Hb) as (_ & _ & _ & _ & Hc & Hk).
      specialize (IH l1 w1).
      destruct (loop W send io u l1 es w1) as [r [w2 t2]].
      unfold events_of in *; simpl in *.
      destruct IH as (n & Hn & Hc2 & Hk2).
      exists (S n). rewrite http_calls_app, encrypt_calls_app, length_app.
      rewrite Hc, Hc2, Hk. simpl. repeat split; lia.
Qed.

(** [proxy_task] on a payload whose [organizations] is a list with
    entries: the loop, then the post, then the answer. *)
Lemma proxy_task_run (rq : request) [auth : string]
    [d : list (string * json)] [orgs : list json] (w : W) :
  headers_find (headers rq) "Authorization" = Some auth ->
  get_json rq = JObj d ->
  dict_get d "organizations" = Some (JList orgs) ->
  orgs <> [] ->
  proxy_task W send environ (Some io) rq w =
  match loop W send io url (mkLocals [] None) orgs w with
  | (inl ex, (w1, t)) => (inl ex, (w1, announce orgs :: t))
  | (inr (inl v), (w1, t)) => (inr v, (w1, announce orgs :: t))
  | (inr (inr l), (w1, t)) =>
      let c := task_call url auth (forwarded d (encrypted_organizations l)) in
      match send w1 c with
      | (inr resp, w2) =>
          (match body_json resp with
           | Some b => inr (Jsonify b)
           | None => inl JSONDecodeError
           end, (w2, announce orgs :: t ++ [EvHttp c]))
      | (inl ex, w2) =>
          (match response_var l with
           | None => inl (UnboundLocalError "response")
           | Some r =>
               match body_json r with
               | Some b => inr (Jsonify b)
               | None => inl JSONDecodeError
               end
           end,
           (w2, announce orgs :: t ++
                  [EvHttp c;
                   EvLog ERROR [Lit "Proxyserver was unable to post new task!"];
                   EvLogExn DEBUG ex]))
      end
  end.
Proof using environ_url environ_port environ_path.
  intros Hauth Hjson Horgs Hne.
  unfold proxy_task.
  erewrite bind_inr by reflexivity. rewrite and_then_nil.
  erewrite bind_inr by apply server_info_run. rewrite and_then_nil.
  erewrite bind_inr by (unfold headers_getitem; rewrite Hauth; reflexivity).
  rewrite and_then_nil, Hjson.
  erewrite bind_inr by (unfold py_get; rewrite Horgs; reflexivity).
  rewrite and_then_nil.
  replace (truthy (JList orgs)) with true by (destruct orgs; [now elim Hne|reflexivity]).
  change (negb true) with false. cbv beta iota.
  erewrite bind_inr by reflexivity. rewrite and_then_nil.
  erewrite bind_inr by reflexivity.
  erewrite bind_inr by reflexivity. rewrite and_then_nil.
  fold (announce orgs).
  destruct (loop W send io url (mkLocals [] None) orgs w)
    as [[ex|[v|l]] [w1 t]] eqn:Hloop.
  - erewrite bind_inl; [|eassumption]. reflexivity.
  - erewrite bind_inr; [|eassumption]. simpl. now rewrite app_nil_r.
  - erewrite bind_inr; [|eassumption]. cbv beta iota.
    erewrite bind_inr by reflexivity. rewrite and_then_nil.
    fold (forwarded d (encrypted_organizations l)). cbv zeta.
    set (c := task_call url auth (forwarded d (encrypted_organizations l))).
    destruct (send w1 c) as [[ex|resp] w2] eqn:Hsend.
    + erewrite bind_inr;
        [|erewrite try_inl;
          [|unfold bind, requests; rewrite Hsend; reflexivity];
          reflexivity].
      unfold read_response, response_json, and_then, bind, ret, raise.
      destruct (response_var l) as [r|]; simpl;
        [destruct (body_json r); simpl|]; rewrite ?app_nil_r; reflexivity.
    + erewrite bind_inr;
        [|erewrite try_inr;
          [|unfold bind, requests, ret; rewrite Hsend; reflexivity];
          reflexivity].
      unfold read_response, response_json, and_then, bind, ret, raise.
      simpl. destruct (body_json resp); simpl; rewrite ?app_nil_r;
        reflexivity.
Qed.

Lemma lookups_not_post (u : string) (es : list json) :
  Forall (fun c => is_post c = false) (map (lookup u) es).
Proof. induction es; simpl; constructor; auto. Qed.

(** The only value the loop returns early is [None]. *)
Lemma loop_early_return (u : string) (es : list json) (l : locals) (w : W)
    (v : view_return) (st : W * list event) :
  loop W send io u l es w = (inr (inl v), st) -> v = ReturnNone.
Proof.
  revert l w st. induction es as [|e es IH]; intros l w st; simpl.
  - discriminate.
  - unfold bind.
    destruct (loop_body W send io u l e w) as [[ex|[v1|l1]] [w1 t1]] eqn:Hb;
      try discriminate.
    + rewrite loop_body_run in Hb. unfold ret. intros H. injection H as <- _.
      destruct e; try discriminate. cbv zeta in Hb.
      destruct (truthy _); [|congruence].
      destruct (send w _) as [[ex|resp] w2]; [discriminate|].
      destruct (body_json resp) as [[| | | | |b]|]; try discriminate.
      destruct (encrypt _ _ _); discriminate.
    + destruct (loop W send io u l1 es w1) as [r [w2 t2]] eqn:Hl.
      intros H. injection H as -> _. eapply IH; eauto.
Qed.

(** A refused entry stops the loop without a call. *)
Lemma loop_body_refused (u : string) (l : locals) [e : json] (w : W) :
  refused e ->
  exists r t,
    loop_body W send io u l e w = (r, (w, t)) /\
    (forall l', r <> inr (inr l')) /\
    http_calls t = [] /\ encrypt_calls t = [].
Proof.
  unfold refused. intros Hr. rewrite loop_body_run.
  destruct e; simpl in *; try (do 2 eexists; repeat split; discriminate).
  rewrite Hr. do 2 eexists; repeat split; discriminate.
Qed.

(** A refused entry anywhere in the list: the loop does not run to its
    end, and calls out for entries before it only. *)
Lemma loop_refused (u : string) (pre post : list json) [e : json]
    (l : locals) (w : W) :
  refused e ->
  let run := loop W send io u l (pre ++ e :: post) w in
  (forall l', result_of run <> inr (inr l')) /\
  exists n, (n <= length pre)%nat /\
    http_calls (events_of run) = map (lookup u) (firstn n pre) /\
    (length (encrypt_calls (events_of run)) <= n)%nat.
Proof.
  intros Hr. cbv zeta. rewrite loop_app.
  destruct (loop_calls_prefix u pre l w) as (n & Hn & Hc & Hk).
  destruct (loop W send io u l pre w) as [[ex|[v|l1]] [w1 t1]] eqn:Hpre;
    unfold events_of, result_of in *; simpl in *.
  - split; [discriminate|]. exists n. auto.
  - split; [discriminate|]. exists n. auto.
  - unfold bind.
    destruct (loop_body_refused u l1 w1 Hr) as (r & t & Hb & Hnot & Hc2 & Hk2).
    rewrite Hb.
    assert (Hres : exists r', (forall l', r' <> inr (inr l')) /\
              match r with
              | inl e0 => (inl e0, (w1, t))
              | inr a =>
                  let (r0, p) :=
                    match a with
                    | inl v => ret (inl v)
                    | inr l' => loop W send io u l' post
                    end w1 in
                  let (w2, t2) := p in (r0, (w2, t ++ t2))
              end = (r', (w1, t))).
    { destruct r as [ex|[v|l2]].
      - exists (inl ex). split; [discriminate|reflexivity].
      - exists (inr (inl v)). split; [discriminate|].
        unfold ret. now rewrite app_nil_r.
      - now elim (Hnot l2). }
    destruct Hres as (r' & Hnot' & ->). simpl. split; [exact Hnot'|].
    exists n. rewrite http_calls_app, encrypt_calls_app, length_app, Hc2, Hk2.
    rewrite !app_nil_r. simpl. repeat split; auto. lia.
Qed.

(** [proxy_task] when [organizations] is absent or falsy. *)
Lemma proxy_task_no_organizations (rq : request) [auth : string]
    [d : list (string * json)] (w : W) :
  headers_find (headers rq) "Authorization" = Some auth ->
  get_json rq = JObj d ->
  truthy (or_none (dict_get d "organizations")) = false ->
  proxy_task W send environ (Some io) rq w =
    (inr ReturnNone, (w, [EvLog ERROR [Lit "No organizations found?!"]])).
Proof using environ_url environ_port environ_path.
  intros Hauth Hjson Hf.
  unfold proxy_task.
  erewrite bind_inr by reflexivity. rewrite and_then_nil.
  erewrite bind_inr by apply server_info_run. rewrite and_then_nil.
  erewrite bind_inr by (unfold headers_getitem; rewrite Hauth; reflexivity).
  rewrite and_then_nil, Hjson.
  erewrite bind_inr by reflexivity. rewrite and_then_nil.
  unfold or_none in Hf. rewrite Hf. reflexivity.
Qed.

(** [proxy_task] on a payload with a refused entry: nothing comes back
    from the coordinator, and the calls are key lookups of entries
    before the refused one. *)
Lemma proxy_task_refused (rq : request) [auth : string]
    [d : list (string * json)] [pre post : list json] [e : json] (w : W) :
  headers_find (headers rq) "Authorization" = Some auth ->
  get_json rq = JObj d ->
  dict_get d "organizations" = Some (JList (pre ++ e :: post)) ->
  refused e ->
  let run := proxy_task W send environ (Some io) rq w in
  (result_of run = inr ReturnNone \/ exists ex, result_of run = inl ex) /\
  exists n, (n <= length pre)%nat /\
    http_calls (events_of run) = map (lookup url) (firstn n pre) /\
    (length (encrypt_calls (events_of run)) <= n)%nat.
Proof using environ_url environ_port environ_path.
  intros Hauth Hjson Horgs Hr. cbv zeta.
  rewrite (proxy_task_run rq w Hauth Hjson Horgs)
    by (destruct pre; discriminate).
  pose proof (loop_refused url pre post (mkLocals [] None) w Hr)
    as [Hnot Hcalls].
  cbv zeta in Hnot, Hcalls.
  destruct (loop W send io url (mkLocals [] None) (pre ++ e :: post) w)
    as [[ex|[v|l]] [w1 t]] eqn:Hloop;
    unfold events_of, result_of in *; simpl in *.
  - split; [right; eauto|exact Hcalls].
  - rewrite (loop_early_return _ _ _ _ _ _ Hloop). split; [now left|exact Hcalls].
  - now elim (Hnot l).
Qed.

Lemma all_encrypted_ciphertexts (u : string) (es es' : list json) (w w' : W) :
  all_encrypted W send io u w es w' es' ->
  Forall2 (ciphertext_of io) es es'.
Proof.
  induction 1 as [w|w w1 w2 e e' resp es es' He Hes IH]; constructor; auto.
  destruct He as [d body input ct -> Hin Ht Hs Hb He ->].
  exists input, (or_none (dict_get body "public_key")), ct.
  simpl. rewrite dict_get_set. auto.
Qed.

(** Two dicts the loop refuses stop it the same way, whatever else they
    hold. *)
Lemma loop_same_refusal (u : string) (pre post : list json)
    [de de' : list (string * json)] (l : locals) (w : W) :
  refused (JObj de) -> refused (JObj de') ->
  loop W send io u l (pre ++ JObj de :: post) w =
  loop W send io u l (pre ++ JObj de' :: post) w.
Proof.
  unfold refused. simpl. intros Hr Hr'. rewrite !loop_app.
  destruct (loop W send io u l pre w) as [[ex|[v|l1]] [w1 t1]];
    try reflexivity.
  simpl. unfold bind. rewrite !loop_body_run. cbv zeta.
  now rewrite Hr, Hr'.
Qed.

(** C1 (amended): for every payload whose [organizations] list is
    non-empty and whose every entry carries a truthy [input], when every
    key lookup answers with a JSON object, the provider encrypts every
    input and the coordinator answers the post with a JSON body: the
    relay makes the key lookups [GET /organization/{id}] entry by entry,
    in list order, then one [POST /task] whose payload is the received
    one with every entry's [input] replaced by the ciphertext of that
    input under the [public_key] of that entry's lookup, with the
    received [Authorization] value as it came, and returns the
    coordinator's JSON body. *)
Theorem create_task_forwards_ciphertexts (rq : request) (auth : string)
    (d : list (string * json)) (orgs orgs' : list json) (w w1 w2 : W)
    (resp : response) (answer : json) :
  headers_find (headers rq) "Authorization" = Some auth ->
  get_json rq = JObj d ->
  dict_get d "organizations" = Some (JList orgs) ->
  orgs <> [] ->
  all_encrypted W send io url w orgs w1 orgs' ->
  send w1 (task_call url auth (forwarded d orgs')) = (inr resp, w2) ->
  body_json resp = Some answer ->
  let run := proxy_task W send environ (Some io) rq w in
  result_of run = inr (Jsonify answer) /\
  http_calls (events_of run) =
    map (lookup url) orgs ++ [task_call url auth (forwarded d orgs')] /\
  c_headers (task_call url auth (forwarded d orgs'))
    = [("Authorization", Some auth)] /\
  dict_get (dict_set d "organizations" (JList orgs')) "organizations"
    = Some (JList orgs') /\
  Forall2 (ciphertext_of io) orgs orgs'.
Proof using environ_url environ_port environ_path.
  intros Hauth Hjson Horgs Hne Hall Hsend Hbody. cbv zeta.
  rewrite (proxy_task_run rq w Hauth Hjson Horgs Hne).
  destruct (all_encrypted_loop Hall (mkLocals [] None))
    as (t & r & Hloop & Hc & _).
  rewrite Hloop. simpl encrypted_organizations. cbv zeta.
  rewrite Hsend, Hbody. unfold result_of, events_of. simpl.
  rewrite http_calls_app, Hc. simpl.
  repeat split; auto using dict_get_set.
  eapply all_encrypted_ciphertexts; eauto.
Qed.

(** C2 (amended): for every payload whose [organizations] is absent or
    the empty list, or that contains an entry lacking [input], the
    request ends without a coordinator answer and nothing is sent to the
    coordinator's [/task] endpoint.  With [organizations] absent or
    empty no outbound call is made at all; otherwise the only outbound
    calls are key lookups of entries before the first one lacking
    [input], in list order (none when it is the first entry). *)
Theorem malformed_payload_is_not_forwarded (rq : request) (auth : string)
    (d : list (string * json)) (w : W) :
  headers_find (headers rq) "Authorization" = Some auth ->
  get_json rq = JObj d ->
  let run := proxy_task W send environ (Some io) rq w in
  (dict_get d "organizations" = None \/
   dict_get d "organizations" = Some (JList []) ->
   (forall b, result_of run <> inr (Jsonify b)) /\
   http_calls (events_of run) = []) /\
  (forall pre e post,
     dict_get d "organizations" = Some (JList (pre ++ e :: post)) ->
     entry_input e = None ->
     (forall b, result_of run <> inr (Jsonify b)) /\
     Forall (fun c => is_post c = false) (http_calls (events_of run)) /\
     exists n, (n <= length pre)%nat /\
       http_calls (events_of run) = map (lookup url) (firstn n pre)).
Proof using environ_url environ_port environ_path.
  intros Hauth Hjson. cbv zeta. split.
  - intros Hno.
    rewrite (proxy_task_no_organizations rq w Hauth Hjson)
      by (destruct Hno as [-> | ->]; reflexivity).
    split; [discriminate|reflexivity].
  - intros pre e post Horgs Hin.
    assert (Hr : refused e) by (unfold refused; now rewrite Hin).
    destruct (proxy_task_refused rq w Hauth Hjson Horgs Hr)
      as (Hres & n & Hn & Hc & _).
    repeat split.
    + intros b Hb. destruct Hres as [Hres|[ex Hres]]; congruence.
    + rewrite Hc. apply lookups_not_post.
    + eauto.
Qed.

(** C10: the malformed-payload test of the create-task forward is a
    truthiness test.  An [organizations] value that is present but
    falsy, and an entry whose [input] is present but falsy, give the
    very run that the absent value gives: same result, same final world,
    same events; the request ends without a coordinator answer and
    nothing is posted to [/task]. *)
Theorem falsy_is_treated_as_absent (rq rq' : request) (auth : string)
    (d d' : list (string * json)) (w : W) :
  headers_find (headers rq) "Authorization" = Some auth ->
  headers_find (headers rq') "Authorization" = Some auth ->
  get_json rq = JObj d ->
  get_json rq' = JObj d' ->
  let run := proxy_task W send environ (Some io) rq w in
  let run' := proxy_task W send environ (Some io) rq' w in
  (forall v,
     dict_get d "organizations" = Some v -> truthy v = false ->
     dict_get d' "organizations" = None ->
     run = run' /\ result_of run = inr ReturnNone /\
     http_calls (events_of run) = []) /\
  (forall pre post de de' v,
     dict_get d "organizations" = Some (JList (pre ++ JObj de :: post)) ->
     dict_get d' "organizations" = Some (JList (pre ++ JObj de' :: post)) ->
     dict_get de "input" = Some v -> truthy v = false ->
     dict_get de' "input" = None ->
     run = run' /\
     (forall b, result_of run <> inr (Jsonify b)) /\
     Forall (fun c => is_post c = false) (http_calls (events_of run))).
Proof using environ_url environ_port environ_path.
  intros Hauth Hauth' Hjson Hjson'. cbv zeta. split.
  - intros v Hv Hf Hnone.
    rewrite (proxy_task_no_organizations rq w Hauth Hjson)
      by (now rewrite Hv).
    rewrite (proxy_task_no_organizations rq' w Hauth' Hjson')
      by (now rewrite Hnone).
    repeat split.
  - intros pre post de de' v Horgs Horgs' Hin Hf Hin'.
    assert (Hr : refused (JObj de)) by (unfold refused; simpl; now rewrite Hin).
    assert (Hr' : refused (JObj de'))
      by (unfold refused; simpl; now rewrite Hin').
    destruct (proxy_task_refused rq w Hauth Hjson Horgs Hr)
      as (Hres & n & Hn & Hc & _).
    repeat split.
    + rewrite (proxy_task_run rq w Hauth Hjson Horgs)
        by (destruct pre; discriminate).
      rewrite (proxy_task_run rq' w Hauth' Hjson' Horgs')
        by (destruct pre; discriminate).
      rewrite (loop_same_refusal url pre post (mkLocals [] None) w Hr Hr').
      pose proof (loop_refused url pre post (mkLocals [] None) w Hr')
        as [Hnot _]. cbv zeta in Hnot.
      unfold announce. rewrite !length_app. simpl length.
      destruct (loop W send io url (mkLocals [] None)
                  (pre ++ JObj de' :: post) w) as [[ex|[v0|l]] [w1 t]];
        try reflexivity.
      now elim (Hnot l).
    + intros b Hb. destruct Hres as [Hres|[ex Hres]]; congruence.
    + rewrite Hc. apply lookups_not_post.
Qed.

Lemma lookup_is_not_post (u : string) (es : list json) (c : call) :
  In c (map (lookup u) es) -> is_post c = false.
Proof.
  intros Hin. pose proof (lookups_not_post u es) as H.
  rewrite Forall_forall in H. auto.
Qed.


(** A turn whose key lookup fails ends with the exception of the
    lookup, before the provider is called. *)
Lemma loop_body_lookup_fails [u : string] (l : locals)
    [de : list (string * json)] [input : json] [w w' : W] [ex : exn] :
  dict_get de "input" = Some input ->
  truthy input = true ->
  lookup_fails W send u w (JObj de) w' ex ->
  exists t,
    loop_body W send io u l (JObj de) w = (inl ex, (w', t)) /\
    http_calls t = [lookup u (JObj de)] /\ encrypt_calls t = [].
Proof.
  intros Hin Ht Hfail. rewrite loop_body_run. cbv zeta.
  rewrite Hin. simpl or_none. rewrite Ht.
  destruct Hfail as [ex Hs|resp Hs Hb|resp b Hs Hb Hno]; rewrite Hs.
  - eexists; repeat split.
  - rewrite Hb. eexists; repeat split.
  - rewrite Hb. destruct b; try (eexists; repeat split; fail).
    now elim (Hno d).
Qed.

(** C4 (amended): when the entries before an entry went through and the
    key lookup of that entry fails (the call raises, or the answer has
    no JSON body, or the body is not a JSON object), the create-task
    forward ends with that very exception; the provider is called for
    the entries before it only, and nothing is posted to [/task]. *)
Theorem key_lookup_failure_aborts (rq : request) (auth : string)
    (d de : list (string * json)) (pre post pre' : list json)
    (input : json) (w w1 w2 : W) (ex : exn) :
  headers_find (headers rq) "Authorization" = Some auth ->
  get_json rq = JObj d ->
  dict_get d "organizations" = Some (JList (pre ++ JObj de :: post)) ->
  all_encrypted W send io url w pre w1 pre' ->
  dict_get de "input" = Some input ->
  truthy input = true ->
  lookup_fails W send url w1 (JObj de) w2 ex ->
  let run := proxy_task W send environ (Some io) rq w in
  result_of run = inl ex /\
  http_calls (events_of run) = map (lookup url) (pre ++ [JObj de]) /\
  length (encrypt_calls (events_of run)) = length pre /\
  Forall (fun c => is_post c = false) (http_calls (events_of run)).
Proof using environ_url environ_port environ_path.
  intros Hauth Hjson Horgs Hpre Hin Ht Hfail. cbv zeta.
  rewrite (proxy_task_run rq w Hauth Hjson Horgs)
    by (destruct pre; discriminate).
  rewrite loop_app.
  destruct (all_encrypted_loop Hpre (mkLocals [] None))
    as (t1 & r1 & Hloop & Hc1 & Hk1 & _).
  rewrite Hloop. simpl loop. unfold bind.
  destruct (loop_body_lookup_fails (mkLocals pre' r1) Hin Ht Hfail)
    as (t2 & Hb & Hc2 & Hk2).
  rewrite Hb.
  unfold result_of, events_of. simpl.
  rewrite http_calls_app, encrypt_calls_app, length_app, Hc1, Hc2, Hk1, Hk2.
  rewrite map_app. simpl. repeat split; try lia.
  change (map (lookup url) pre ++ [lookup url (JObj de)])
    with (map (lookup url) pre ++ map (lookup url) [JObj de]).
  rewrite <- map_app. apply lookups_not_post.
Qed.

(** [proxy] makes exactly one outbound call, whatever comes back. *)
Lemma proxy_calls (rq : request) (central_server_path : string) (w : W) :
  http_calls (events_of (proxy W send environ rq central_server_path w))
    = [proxied url rq central_server_path].
Proof using environ_url environ_port environ_path.
  unfold proxy, proxied.
  erewrite bind_inr by apply server_info_run. rewrite and_then_nil.
  unfold headers_getitem, try_except, bind, requests, response_json, py_get,
    ret, raise, log, log_exn, emit, events_of.
  destruct (headers_find (headers rq) "Authorization") as [auth|]; simpl;
    (destruct (send w _) as [[ex|resp] w1]; simpl; [reflexivity|]);
    (destruct (Z.ltb 200 (status_code resp)); simpl;
     destruct (body_json resp) as [[| | | | |b]|]; reflexivity).
Qed.


(** C7 at the failing input: when the call of the result fetch raises,
    the handler logs, and then reads [response], which was never bound:
    the view ends in [UnboundLocalError], not in a failure result. *)
Theorem result_fetch_leaves_response_unbound (rq : request) (id : Z)
    (auth : string) (w w1 : W) (ex : exn) :
  headers_find (headers rq) "Authorization" = Some auth ->
  send w (result_call url auth id) = (inl ex, w1) ->
  proxy_results W send environ rq id w =
    (inl (UnboundLocalError "response"),
     (w1, [EvHttp (result_call url auth id);
           EvLog ERROR [Lit "Proxyserver was unable to retrieve results!"];
           EvLogExn DEBUG ex])).
Proof using environ_url environ_port environ_path.
  intros Hauth Hsend. unfold proxy_results.
  erewrite bind_inr by apply server_info_run. rewrite and_then_nil.
  erewrite bind_inr by (unfold headers_getitem; rewrite Hauth; reflexivity).
  rewrite and_then_nil.
  unfold try_except, bind, requests, read_response, log, log_exn, emit, ret,
    raise.
  rewrite Hsend. reflexivity.
Qed.

(** The same defect in the create-task forward: when the post raises,
    [response] still holds the answer of the last key lookup, and the
    view returns that answer's body as if it were the coordinator's. *)
Lemma create_task_post_raises (rq : request) (auth : string)
    (d : list (string * json)) (orgs orgs' : list json) (w w1 w2 : W)
    (ex : exn) :
  headers_find (headers rq) "Authorization" = Some auth ->
  get_json rq = JObj d ->
  dict_get d "organizations" = Some (JList orgs) ->
  orgs <> [] ->
  all_encrypted W send io url w orgs w1 orgs' ->
  send w1 (task_call url auth (forwarded d orgs')) = (inl ex, w2) ->
  exists last_lookup,
    result_of (proxy_task W send environ (Some io) rq w) =
      match body_json last_lookup with
      | Some b => inr (Jsonify b)
      | None => inl JSONDecodeError
      end.
Proof using environ_url environ_port environ_path.
  intros Hauth Hjson Horgs Hne Hall Hsend.
  rewrite (proxy_task_run rq w Hauth Hjson Horgs Hne).
  destruct (all_encrypted_loop Hall (mkLocals [] None))
    as (t & r & Hloop & _ & _ & _ & Hsome).
  destruct (Hsome Hne) as [resp ->].
  rewrite Hloop. simpl encrypted_organizations. cbv zeta.
  rewrite Hsend. exists resp. reflexivity.
Qed.

(** And in the generic forward: when the call raises, the view returns
    [None]. *)
Lemma generic_forward_call_raises (rq : request)
    (central_server_path : string) (w w1 : W) (ex : exn) :
  send w (proxied url rq central_server_path) = (inl ex, w1) ->
  result_of (proxy W send environ rq central_server_path w) = inr ReturnNone.
Proof using environ_url environ_port environ_path.
  intros Hsend. unfold proxy, proxied in *.
  erewrite bind_inr by apply server_info_run. rewrite and_then_nil.
  unfold headers_getitem, try_except, bind, requests, ret, raise, log,
    log_exn, emit, result_of.
  destruct (headers_find (headers rq) "Authorization") as [auth|]; simpl;
    simpl in Hsend; rewrite Hsend; reflexivity.
Qed.

(** The body of [proxy] forwards what it is given: the method of the
    table, the path after the base URL, the parameters, the body and the
    [Authorization] value of the request. *)
Lemma proxy_forwards_verbatim (rq : request) (central_server_path : string)
    (w : W) :
  exists c,
    http_calls (events_of (proxy W send environ rq central_server_path w))
      = [c] /\
    c_method c = method_table (lower (method rq)) /\
    c_url c = [Lit url; Lit "/"; Lit central_server_path] /\
    c_params c = args rq /\
    c_json c = get_json rq /\
    c_headers c =
      [("Authorization", headers_find (headers rq) "Authorization")].
Proof using environ_url environ_port environ_path.
  exists (proxied url rq central_server_path).
  rewrite proxy_calls. repeat split.
Qed.

End RelayFacts.

(* ===================================================================== *)
(** ** Facts about the routes *)
(* ===================================================================== *)

(** The catch-all rule is the only one that leads to [proxy], and it
    listens to GET, HEAD and OPTIONS. *)
Lemma proxy_is_reached_by_get_only (m p q : string) :
  match_rules url_map false m p = Matched (ep_proxy q) ->
  m = "GET" \/ m = "HEAD" \/ m = "OPTIONS".
Proof.
  unfold url_map, rule_methods. simpl.
  destruct (String.eqb p "/task").
  { destruct (String.eqb m "POST" || (String.eqb m "OPTIONS" || false))%bool;
      [discriminate|].
    repeat match goal with
    | |- context [opt_map ?f ?o] => destruct (opt_map f o); simpl
    end;
    repeat match goal with
    | |- context [String.eqb m ?x] => destruct (String.eqb_spec m x); simpl
    end; try discriminate; auto. }
  repeat match goal with
  | |- context [opt_map ?f ?o] => destruct (opt_map f o); simpl
  end;
  repeat match goal with
  | |- context [String.eqb m ?x] => destruct (String.eqb_spec m x); simpl
  end; try discriminate; auto.
Qed.

(** C8 at the failing input: a POST to a path of the generic forward.
    The rule of [proxy] is declared without [methods=], so it listens to
    GET only: the app answers 405 and no outbound call is made, whatever
    the headers, the body and the parameters. *)
Theorem generic_forward_refuses_post (W : Type)
    (send : W -> call -> (exn + response) * W)
    (environ : string -> option string)
    (SERVER_IO : option ClientNodeProtocol)
    (hs : list (string * string)) (body : json)
    (params : list (string * string)) (w : W) :
  app W send environ SERVER_IO
      (mkRequest "POST" "/collaboration/1" hs body params) w
  = (inr MethodNotAllowed, (w, [])).
Proof. reflexivity. Qed.

(* ===================================================================== *)
(** ** Facts about the permission check *)
(* ===================================================================== *)

Lemma Scope_eqb_eq (a b : Scope) : Scope_eqb a b = true <-> a = b.
Proof. destruct a, b; simpl; split; congruence. Qed.

Lemma Operation_eqb_eq (a b : Operation) : Operation_eqb a b = true <-> a = b.
Proof. destruct a, b; simpl; split; congruence. Qed.

Lemma has_triple_eq (resource : string) (s : Scope) (o : Operation) (x : Rule) :
  has_triple resource s o x = true <->
  name x = resource /\ scope x = s /\ operation x = o.
Proof.
  unfold has_triple.
  rewrite !andb_true_iff, String.eqb_eq, Scope_eqb_eq, Operation_eqb_eq.
  tauto.
Qed.

Section Permission.

Variable catalog : list Rule.
Hypothesis ids : unique_ids catalog.
Hypothesis triples : unique_triples catalog.

(** The query finds the row of a triple when the table has one. *)
Lemma get_by_finds (x : Rule) :
  In x catalog -> get_by_ catalog (name x) (scope x) (operation x) = Some x.
Proof using triples.
  intros Hx. unfold get_by_.
  destruct (find _ catalog) as [y|] eqn:Hf.
  - apply find_some in Hf. destruct Hf as [Hy Ht].
    apply has_triple_eq in Ht. destruct Ht as (Hn & Hs & Ho).
    f_equal. now apply triples.
  - eapply find_none in Hf; [|exact Hx].
    assert (has_triple (name x) (scope x) (operation x) x = true)
      by (now apply has_triple_eq).
    congruence.
Qed.

(** Among rows of the table, [in] is membership. *)
Lemma rule_in_iff (rule : Rule) (l : list Rule) :
  In rule catalog -> (forall x, In x l -> In x catalog) ->
  rule_in (Some rule) l = true <-> In rule l.
Proof using ids.
  intros Hr Hl. simpl. rewrite existsb_exists. split.
  - intros (x & Hx & Hid). apply Z.eqb_eq in Hid.
    assert (x = rule) by (apply ids; auto). now subst.
  - intros Hin. exists rule. split; [exact Hin|apply Z.eqb_refl].
Qed.

(** A rule of another triple does not change what [in] answers. *)
Lemma rule_in_other (rule : option Rule) (x : Rule) (l : list Rule) :
  In x catalog ->
  (forall r, rule = Some r -> In r catalog /\ x <> r) ->
  rule_in rule (x :: l) = rule_in rule l.
Proof using ids.
  intros Hx Hr. destruct rule as [r|]; [|reflexivity]. simpl.
  destruct (Hr r eq_refl) as [Hin Hne].
  destruct (Z.eqb_spec (rule_id x) (rule_id r)) as [Heq|]; [|reflexivity].
  elim Hne. now apply ids.
Qed.

(** C5: for a user whose rules are rows of the rule table, [can] is
    true exactly when a rule with the very triple asked for is among
    the user's direct rules or the rules of one of the user's roles;
    and a rule of a different triple, given to the user directly or
    through a new role, leaves the answer for the asked triple as it
    was. *)
Theorem can_iff_exact_triple (u : User) (resource : string) (s : Scope)
    (o : Operation) :
  from_catalog catalog u ->
  (can catalog u resource s o = true <->
   exists x, In x (effectiveRules u) /\
     name x = resource /\ scope x = s /\ operation x = o) /\
  (forall x,
     In x catalog ->
     (name x, scope x, operation x) <> (resource, s, o) ->
     can catalog (mkUser (username u) (x :: rules u) (roles u)) resource s o
       = can catalog u resource s o /\
     can catalog
       (mkUser (username u) (rules u) (mkRole "other" [x] :: roles u))
       resource s o
       = can catalog u resource s o).
Proof using ids triples.
  intros Hu. split; [split|].
  - unfold can. intros Hcan.
    destruct (get_by_ catalog resource s o) as [rule|] eqn:Hget.
    + pose proof Hget as Hfound. unfold get_by_ in Hfound.
      apply find_some in Hfound. destruct Hfound as [Hin Ht].
      apply has_triple_eq in Ht.
      exists rule. split; [|exact Ht].
      apply orb_true_iff in Hcan. destruct Hcan as [Hd|Hr].
      * apply rule_in_iff in Hd; auto.
        -- unfold effectiveRules. apply in_or_app. now left.
        -- intros x Hx. apply Hu. unfold effectiveRules.
           apply in_or_app. now left.
      * apply existsb_exists in Hr. destruct Hr as (role & Hrole & Hr).
        assert (Hsub : forall x, In x (role_rules role) ->
                                 In x (effectiveRules u)).
        { intros x Hx. unfold effectiveRules. apply in_or_app. right.
          apply in_flat_map. eauto. }
        apply rule_in_iff in Hr; auto.
    + simpl in Hcan.
      assert (Hno : existsb (fun _ : Role => false) (roles u) = false)
        by (induction (roles u); auto).
      congruence.
  - intros (x & Hx & Hn & Hs & Ho). subst. unfold can.
    rewrite (get_by_finds x (Hu x Hx)).
    unfold effectiveRules in Hx. apply in_app_or in Hx.
    apply orb_true_iff. destruct Hx as [Hd|Hr].
    + left. apply rule_in_iff; [| |exact Hd];
        [|intros y Hy]; apply Hu; unfold effectiveRules; apply in_or_app;
        now left.
    + right. apply in_flat_map in Hr. destruct Hr as (role & Hrole & Hr).
      apply existsb_exists. exists role. split; [exact Hrole|].
      apply rule_in_iff; [| |exact Hr];
        [|intros y Hy]; apply Hu; unfold effectiveRules; apply in_or_app;
        right; apply in_flat_map; eauto.
  - intros x Hx Hne.
    assert (Hother : forall r, get_by_ catalog resource s o = Some r ->
                               In r catalog /\ x <> r).
    { intros r Hget. unfold get_by_ in Hget. apply find_some in Hget.
      destruct Hget as [Hin Ht]. apply has_triple_eq in Ht.
      destruct Ht as (Hn & Hs & Ho). split; [exact Hin|].
      intros ->. apply Hne. now rewrite Hn, Hs, Ho. }
    unfold can. simpl rules. simpl roles. split.
    + now rewrite (rule_in_other _ x (rules u) Hx Hother).
    + simpl existsb. rewrite (rule_in_other _ x [] Hx Hother).
      destruct (get_by_ catalog resource s o); simpl;
        now rewrite ?orb_false_r.
Qed.

End Permission.

(* ===================================================================== *)
(** ** Facts about the endpoint guard *)
(* ===================================================================== *)

(** A kind outside the allow-set: the decorator logs a warning and
    raises a plain [Exception]; the view is not called and the table is
    not touched. *)
Lemma only_for_rejects {A} (types : list string) (fn : G -> M DB A)
    (identity g_type : json) (claims : list (string * json))
    (request_url request_method : string) (utcnow : Z) (db : DB) :
  dict_get claims "client_type" = Some g_type ->
  existsb (str_eq g_type) types = false ->
  only_for types fn identity claims request_url request_method utcnow db =
    (inl (PyException (not_allowed g_type request_url request_method)),
     (db, [EvLog WARNING (not_allowed g_type request_url request_method)])).
Proof.
  intros Hc Hnot. unfold only_for, bind, ret, raise, log, emit.
  rewrite Hc, Hnot. reflexivity.
Qed.

(** A node whose row is in the table passes the guard for nodes: the
    view runs, with the row in [g.node]. *)
Lemma with_node_accepts {A} (fn : G -> M DB A) (i : Z)
    (claims : list (string * json)) (request_url request_method : string)
    (utcnow : Z) (db : DB) (row : Authenticatable) :
  dict_get claims "client_type" = Some (JStr "node") ->
  find (fun a => Z.eqb (id a) i) db = Some row ->
  type row = "node" ->
  let node := mkAuthenticatable (id row) (type row) (label row) utcnow in
  with_node fn (JNum i) claims request_url request_method utcnow db =
    and_then
      [EvLog DEBUG [Lit "Received request from node "; Lit (label row);
                    Lit " ("; Fmt (JNum (id row)); Lit ")"]]
      (fn (mkG (JStr "node") None (Some node) None)
          (map (fun a => if Z.eqb (id a) (id row) then node else a) db)).
Proof.
  intros Hc Hrow Htype. cbv zeta.
  unfold with_node, only_for, get_and_update_authenticatable_info,
    Authenticatable_get, save, py_assert, str_eq, bind, ret, raise, log, emit.
  rewrite Hc. simpl. rewrite Hrow. simpl. rewrite Htype. simpl.
  unfold and_then.
  destruct (fn _ _) as [r [db2 t2]]. reflexivity.
Qed.

(** C6 at the failing input: the guard for nodes, reached with a token
    of a user or of a container.  Whatever the identity, the other
    claims, the request and the table are, the decorator raises a plain
    [Exception] (a 500 for the caller); it returns no rejection. *)
Theorem node_guard_rejects_by_raising {A} (fn : G -> M DB A)
    (identity : json) (other_claims : list (string * json))
    (request_url request_method : string) (utcnow : Z) (db : DB) :
  with_node fn identity (("client_type", JStr "user") :: other_claims)
            request_url request_method utcnow db
  = (inl (PyException
            (not_allowed (JStr "user") request_url request_method)),
     (db, [EvLog WARNING
             (not_allowed (JStr "user") request_url request_method)])) /\
  with_node fn identity (("client_type", JStr "container") :: other_claims)
            request_url request_method utcnow db
  = (inl (PyException
            (not_allowed (JStr "container") request_url request_method)),
     (db, [EvLog WARNING
             (not_allowed (JStr "container") request_url request_method)])).
Proof. split; reflexivity. Qed.

(* ===================================================================== *)
(** ** The theorems at work on the small deployment *)
(* ===================================================================== *)

Lemma create_task_forwards_ciphertexts_witness :
  let orgs := [Demo.organization 1 "a"; Demo.organization 2 "b"] in
  let orgs' := [Demo.organization 1 "pubA:b"; Demo.organization 2 "pubB:c"] in
  let sent := forwarded (Demo.payload orgs) orgs' in
  let run := proxy_task nat Demo.send Demo.environ (Some Demo.server_io)
               (Demo.task_request orgs) 0%nat in
  result_of run = inr (Jsonify (JObj [("id", JNum 7); ("sent", sent)])) /\
  http_calls (events_of run) =
    map (lookup Demo.base) orgs ++ [task_call Demo.base "Bearer t0k3n" sent] /\
  c_headers (task_call Demo.base "Bearer t0k3n" sent)
    = [("Authorization", Some "Bearer t0k3n")] /\
  dict_get (dict_set (Demo.payload orgs) "organizations" (JList orgs'))
           "organizations" = Some (JList orgs') /\
  Forall2 (ciphertext_of Demo.server_io) orgs orgs'.
Proof.
  cbv zeta.
  apply (create_task_forwards_ciphertexts nat Demo.send Demo.environ
           Demo.server_io "http://server" "5000" "/api"
           eq_refl eq_refl eq_refl
           (Demo.task_request [Demo.organization 1 "a"; Demo.organization 2 "b"])
           "Bearer t0k3n"
           (Demo.payload [Demo.organization 1 "a"; Demo.organization 2 "b"])
           [Demo.organization 1 "a"; Demo.organization 2 "b"]
           [Demo.organization 1 "pubA:b"; Demo.organization 2 "pubB:c"]
           0%nat 2%nat 3%nat
           (mkResponse 201
              (Some (JObj [("id", JNum 7);
                           ("sent",
                            forwarded
                              (Demo.payload
                                 [Demo.organization 1 "a";
                                  Demo.organization 2 "b"])
                              [Demo.organization 1 "pubA:b";
                               Demo.organization 2 "pubB:c"])])))).
  - reflexivity.
  - reflexivity.
  - reflexivity.
  - discriminate.
  - eapply all_encrypted_cons with (w1 := 1%nat).
    + eapply entry_encrypted_intro with (input := JStr "a");
        try reflexivity.
    + eapply all_encrypted_cons with (w1 := 2%nat).
      * eapply entry_encrypted_intro with (input := JStr "b");
          try reflexivity.
      * apply all_encrypted_nil.
  - reflexivity.
  - reflexivity.
Defined.

(** C1, as stated, fails: an entry that carries an [input], the empty
    string, in a non-empty list.  Nothing is looked up, nothing is
    forwarded, and the view returns [None]. *)
Lemma create_task_empty_input_is_not_forwarded :
  let orgs := [Demo.organization 1 ""] in
  let run := proxy_task nat Demo.send Demo.environ (Some Demo.server_io)
               (Demo.task_request orgs) 0%nat in
  orgs <> [] /\
  Forall (fun e => entry_input e = Some (JStr "")) orgs /\
  result_of run = inr ReturnNone /\
  http_calls (events_of run) = [].
Proof.
  cbv zeta. repeat split; try discriminate. repeat constructor.
Qed.

Lemma malformed_payload_is_not_forwarded_witness :
  let run0 := proxy_task nat Demo.send Demo.environ (Some Demo.server_io)
                Demo.bare_request 0%nat in
  let run1 := proxy_task nat Demo.send Demo.environ (Some Demo.server_io)
                (Demo.task_request
                   [Demo.organization 1 "a"; JObj [("id", JNum 2)]]) 0%nat in
  ((forall b, result_of run0 <> inr (Jsonify b)) /\
   http_calls (events_of run0) = []) /\
  ((forall b, result_of run1 <> inr (Jsonify b)) /\
   Forall (fun c => is_post c = false) (http_calls (events_of run1)) /\
   exists n, (n <= 1)%nat /\
     http_calls (events_of run1) =
       map (lookup Demo.base) (firstn n [Demo.organization 1 "a"])).
Proof.
  cbv zeta. split.
  - apply (proj1 (malformed_payload_is_not_forwarded nat Demo.send
             Demo.environ Demo.server_io "http://server" "5000" "/api"
             eq_refl eq_refl eq_refl Demo.bare_request "Bearer t0k3n"
             [("name", JStr "sum")] 0%nat eq_refl eq_refl)).
    left. reflexivity.
  - apply (proj2 (malformed_payload_is_not_forwarded nat Demo.send
             Demo.environ Demo.server_io "http://server" "5000" "/api"
             eq_refl eq_refl eq_refl
             (Demo.task_request
                [Demo.organization 1 "a"; JObj [("id", JNum 2)]])
             "Bearer t0k3n"
             (Demo.payload [Demo.organization 1 "a"; JObj [("id", JNum 2)]])
             0%nat eq_refl eq_refl)
             [Demo.organization 1 "a"] (JObj [("id", JNum 2)]) []);
      reflexivity.
Defined.

(** C2, as stated, fails: the second entry lacks [input]; the key of the
    first entry has been fetched from the coordinator by then, and the
    view returns [None] where the claim wants an error reported. *)
Lemma later_entry_without_input_after_a_lookup :
  let orgs := [Demo.organization 1 "a"; JObj [("id", JNum 2)]] in
  let run := proxy_task nat Demo.send Demo.environ (Some Demo.server_io)
               (Demo.task_request orgs) 0%nat in
  Exists (fun e => entry_input e = None) orgs /\
  result_of run = inr ReturnNone /\
  http_calls (events_of run) = [organization_call Demo.base (JNum 1)] /\
  http_calls (events_of run) <> [].
Proof.
  cbv zeta. repeat split; try discriminate.
  apply Exists_cons_tl. apply Exists_cons_hd. reflexivity.
Qed.


Lemma key_lookup_failure_aborts_witness :
  let orgs := [Demo.organization 1 "a"; Demo.organization 2 "b"] in
  let run := proxy_task nat Demo.down Demo.environ (Some Demo.server_io)
               (Demo.task_request orgs) 0%nat in
  result_of run = inl (RequestException "connection refused") /\
  http_calls (events_of run) =
    map (lookup Demo.base) ([] ++ [Demo.organization 1 "a"]) /\
  length (encrypt_calls (events_of run)) = 0%nat /\
  Forall (fun c => is_post c = false) (http_calls (events_of run)).
Proof.
  cbv zeta.
  apply (key_lookup_failure_aborts nat Demo.down Demo.environ Demo.server_io
           "http://server" "5000" "/api" eq_refl eq_refl eq_refl
           (Demo.task_request [Demo.organization 1 "a"; Demo.organization 2 "b"])
           "Bearer t0k3n"
           (Demo.payload [Demo.organization 1 "a"; Demo.organization 2 "b"])
           [("id", JNum 1); ("input", JStr "a")]
           [] [Demo.organization 2 "b"] [] (JStr "a") 0%nat 0%nat 1%nat).
  - reflexivity.
  - reflexivity.
  - reflexivity.
  - apply all_encrypted_nil.
  - reflexivity.
  - reflexivity.
  - apply lookup_raises. reflexivity.
Defined.

(** C4, as stated, fails: the coordinator does not know organization 9
    and answers 404 with a JSON object that has no [public_key].  The
    relay hands the absent key, [None], to the provider, and posts the
    task with what the provider returns. *)
Lemma missing_public_key_goes_to_the_provider :
  let run := proxy_task nat Demo.send Demo.environ (Some Demo.server_io)
               (Demo.task_request [Demo.organization 9 "a"]) 0%nat in
  fst (Demo.send 0%nat (organization_call Demo.base (JNum 9)))
    = inr (mkResponse 404 (Some (JObj [("msg", JStr "not found")]))) /\
  encrypt_calls (events_of run) = [(JStr "a", JNull)] /\
  (exists c, In c (http_calls (events_of run)) /\ is_post c = true) /\
  (forall ex, result_of run <> inl ex).
Proof.
  cbv zeta. repeat split; try discriminate.
  eexists. split; [right; left; reflexivity|reflexivity].
Qed.

Lemma result_fetch_leaves_response_unbound_witness :
  proxy_results nat Demo.down Demo.environ Demo.result_request 42 0%nat =
    (inl (UnboundLocalError "response"),
     (1%nat,
      [EvHttp (result_call Demo.base "Bearer t0k3n" 42);
       EvLog ERROR [Lit "Proxyserver was unable to retrieve results!"];
       EvLogExn DEBUG (RequestException "connection refused")])).
Proof.
  apply (result_fetch_leaves_response_unbound nat Demo.down Demo.environ
           "http://server" "5000" "/api" eq_refl eq_refl eq_refl
           Demo.result_request 42 "Bearer t0k3n" 0%nat 1%nat
           (RequestException "connection refused")).
  - reflexivity.
  - reflexivity.
Defined.


Lemma falsy_is_treated_as_absent_witness :
  let run rq := proxy_task nat Demo.send Demo.environ (Some Demo.server_io)
                  rq 0%nat in
  (run (Demo.task_request []) = run Demo.bare_request /\
   result_of (run (Demo.task_request [])) = inr ReturnNone /\
   http_calls (events_of (run (Demo.task_request []))) = []) /\
  (run (Demo.task_request [Demo.organization 1 "a"; Demo.organization 2 ""])
     = run (Demo.task_request [Demo.organization 1 "a"; JObj [("id", JNum 2)]])
   /\
   (forall b,
      result_of
        (run (Demo.task_request
                [Demo.organization 1 "a"; Demo.organization 2 ""]))
      <> inr (Jsonify b)) /\
   Forall (fun c => is_post c = false)
     (http_calls
        (events_of
           (run (Demo.task_request
                   [Demo.organization 1 "a"; Demo.organization 2 ""]))))).
Proof.
  cbv zeta. split.
  - apply (proj1 (falsy_is_treated_as_absent nat Demo.send Demo.environ
             Demo.server_io "http://server" "5000" "/api"
             eq_refl eq_refl eq_refl
             (Demo.task_request []) Demo.bare_request "Bearer t0k3n"
             (Demo.payload []) [("name", JStr "sum")] 0%nat
             eq_refl eq_refl eq_refl eq_refl) (JList [])); reflexivity.
  - apply (proj2 (falsy_is_treated_as_absent nat Demo.send Demo.environ
             Demo.server_io "http://server" "5000" "/api"
             eq_refl eq_refl eq_refl
             (Demo.task_request
                [Demo.organization 1 "a"; Demo.organization 2 ""])
             (Demo.task_request
                [Demo.organization 1 "a"; JObj [("id", JNum 2)]])
             "Bearer t0k3n"
             (Demo.payload [Demo.organization 1 "a"; Demo.organization 2 ""])
             (Demo.payload [Demo.organization 1 "a"; JObj [("id", JNum 2)]])
             0%nat eq_refl eq_refl eq_refl eq_refl)
             [Demo.organization 1 "a"] [] [("id", JNum 2); ("input", JStr "")]
             [("id", JNum 2)] (JStr "")); reflexivity.
Defined.

Lemma can_iff_exact_triple_witness :
  (can Demo.catalog Demo.alice "task" Organization Create = true <->
   exists x, In x (effectiveRules Demo.alice) /\
     name x = "task" /\ scope x = Organization /\ operation x = Create) /\
  can Demo.catalog Demo.alice "task" Global Read = false /\
  can Demo.catalog
      (mkUser "alice" (Demo.delete_node :: rules Demo.alice) (roles Demo.alice))
      "task" Global Read
    = can Demo.catalog Demo.alice "task" Global Read.
Proof.
  assert (Hids : unique_ids Demo.catalog).
  { intros a b Ha Hb. simpl in Ha, Hb.
    repeat (destruct Ha as [<-|Ha]; [|]); try contradiction;
      repeat (destruct Hb as [<-|Hb]; [|]); try contradiction;
      simpl; intros; try reflexivity; discriminate. }
  assert (Htriples : unique_triples Demo.catalog).
  { intros a b Ha Hb. simpl in Ha, Hb.
    repeat (destruct Ha as [<-|Ha]; [|]); try contradiction;
      repeat (destruct Hb as [<-|Hb]; [|]); try contradiction;
      simpl; intros; try reflexivity; discriminate. }
  assert (Halice : from_catalog Demo.catalog Demo.alice).
  { intros r Hr. simpl in Hr. destruct Hr as [<-|[<-|[]]]; simpl; auto. }
  split; [|split].
  - exact (proj1 (can_iff_exact_triple Demo.catalog Hids Htriples Demo.alice
                    "task" Organization Create Halice)).
  - reflexivity.
  - apply (proj2 (can_iff_exact_triple Demo.catalog Hids Htriples Demo.alice
                    "task" Global Read Halice) Demo.delete_node).
    + simpl. auto.
    + discriminate.
Defined.

(* ===================================================================== *)
(** ** More about the create-task forward *)
(* ===================================================================== *)

Lemma dict_set_keys (d : list (string * json)) (k : string) (v v0 : json) :
  dict_get d k = Some v0 -> keys (dict_set d k v) = keys d.
Proof.
  unfold keys. induction d as [|[k' v'] d IH]; simpl; [discriminate|].
  destruct (String.eqb k' k); simpl; [reflexivity|].
  intros H. now rewrite IH.
Qed.

(** An encrypted entry is the entry with another [input]: same keys in
    the same order, same value under every other key. *)
Lemma entry_encrypted_keeps_fields (W : Type)
    (send : W -> call -> (exn + response) * W) (io : ClientNodeProtocol)
    (u : string) (w w' : W) (e e' : json) (resp : response) :
  entry_encrypted W send io u w e w' e' resp ->
  exists d d',
    e = JObj d /\ e' = JObj d' /\ keys d' = keys d /\
    forall k, k <> "input" -> dict_get d' k = dict_get d k.
Proof.
  intros [d body input ct -> Hin Ht Hs Hb He ->].
  exists d, (dict_set d "input" ct). repeat split.
  - eapply dict_set_keys; eauto.
  - intros k Hk. now apply dict_get_set_other.
Qed.

Section CreateTask.

Variable W : Type.
Variable send : W -> call -> (exn + response) * W.
Variable environ : string -> option string.
Variable io : ClientNodeProtocol.
Variables env_url env_port env_path : string.
Hypothesis environ_url : environ "SERVER_URL" = Some env_url.
Hypothesis environ_port : environ "SERVER_PORT" = Some env_port.
Hypothesis environ_path : environ "SERVER_PATH" = Some env_path.

Local Abbreviation url := (base_url env_url env_port env_path).

(** The two ways a create-task request with entries can go: it stops in
    the loop after the key lookups of the first [n] entries, or every
    entry goes through and one post follows the lookups. *)
Lemma proxy_task_calls (rq : request) (auth : string)
    (d : list (string * json)) (orgs : list json) (w : W) :
  headers_find (headers rq) "Authorization" = Some auth ->
  get_json rq = JObj d ->
  dict_get d "organizations" = Some (JList orgs) ->
  orgs <> [] ->
  let run := proxy_task W send environ (Some io) rq w in
  (exists n, (n <= length orgs)%nat /\
     http_calls (events_of run) = map (lookup url) (firstn n orgs) /\
     (length (encrypt_calls (events_of run)) <= n)%nat) \/
  (exists orgs' w1,
     all_encrypted W send io url w orgs w1 orgs' /\
     http_calls (events_of run) =
       map (lookup url) orgs ++ [task_call url auth (forwarded d orgs')] /\
     length (encrypt_calls (events_of run)) = length orgs).
Proof using environ_url environ_port environ_path.
  intros Hauth Hjson Horgs Hne. cbv zeta.
  rewrite (proxy_task_run W send environ io env_url env_port env_path
             environ_url environ_port environ_path rq w Hauth Hjson Horgs Hne).
  pose proof (loop_calls_prefix W send io url orgs (mkLocals [] None) w)
    as Hprefix.
  cbv zeta in Hprefix.
  destruct (loop W send io url (mkLocals [] None) orgs w)
    as [[ex|[v|l]] [w1 t]] eqn:Hloop; unfold events_of in *; simpl in *.
  - left. exact Hprefix.
  - left. exact Hprefix.
  - right.
    destruct (loop_completes W send io _ _ _ _ _ _ _ Hloop)
      as (orgs' & Hall & Henc & Hc).
    destruct (all_encrypted_loop W send io Hall (mkLocals [] None))
      as (t' & r' & Hloop' & _ & Hk & _).
    rewrite Hloop in Hloop'. injection Hloop' as _ <-.
    simpl in Henc. rewrite Henc.
    exists orgs', w1. split; [exact Hall|].
    destruct (send w1 _) as [[ex|resp] w2]; simpl;
      rewrite http_calls_app, encrypt_calls_app, length_app, Hc, Hk;
      simpl; split; auto; lia.
Qed.

(** X2: whatever the coordinator and the provider do, the outbound calls
    of a create-task request are key lookups of the first entries, in
    list order, followed by at most one post, which comes only after the
    lookup of every entry; and the provider is called at most once per
    lookup. *)
Theorem create_task_trace_shape (rq : request) (auth : string)
    (d : list (string * json)) (orgs : list json) (w : W) :
  headers_find (headers rq) "Authorization" = Some auth ->
  get_json rq = JObj d ->
  dict_get d "organizations" = Some (JList orgs) ->
  let calls := http_calls (events_of
                 (proxy_task W send environ (Some io) rq w)) in
  let encryptions := encrypt_calls (events_of
                 (proxy_task W send environ (Some io) rq w)) in
  exists n posts,
    (n <= length orgs)%nat /\
    calls = map (lookup url) (firstn n orgs) ++ posts /\
    (length encryptions <= n)%nat /\
    (posts = [] \/
     n = length orgs /\ exists sent, posts = [task_call url auth sent]).
Proof using environ_url environ_port environ_path.
  intros Hauth Hjson Horgs. cbv zeta.
  destruct orgs as [|e0 orgs0].
  { rewrite (proxy_task_no_organizations W send environ io
               env_url env_port env_path environ_url environ_port
               environ_path rq w Hauth Hjson) by (now rewrite Horgs).
    exists 0%nat, []. simpl. auto. }
  remember (e0 :: orgs0) as orgs eqn:Heq.
  assert (Hne : orgs <> []) by (subst; discriminate).
  destruct (proxy_task_calls rq auth d orgs w Hauth Hjson Horgs Hne)
    as [(n & Hn & Hc & Hk)|(orgs' & w1 & Hall & Hc & Hk)].
  - exists n, []. rewrite app_nil_r. auto.
  - exists (length orgs), [task_call url auth (forwarded d orgs')].
    rewrite firstn_all, Hk. repeat split; auto. right. eauto.
Qed.

(** X3: what the relay posts is the received payload with nothing
    changed but the inputs.  The posted dict has the keys of the
    received one in the same order and the same value under every key
    but [organizations]; its [organizations] has as many entries, in the
    same order, each with the keys of the received entry and the same
    value under every key but [input]. *)
Theorem create_task_changes_inputs_only (rq : request) (auth : string)
    (d : list (string * json)) (orgs : list json) (w : W) (c : call) :
  headers_find (headers rq) "Authorization" = Some auth ->
  get_json rq = JObj d ->
  dict_get d "organizations" = Some (JList orgs) ->
  In c (http_calls (events_of (proxy_task W send environ (Some io) rq w))) ->
  is_post c = true ->
  exists d' orgs',
    c_json c = JObj d' /\
    keys d' = keys d /\
    (forall k, k <> "organizations" -> dict_get d' k = dict_get d k) /\
    dict_get d' "organizations" = Some (JList orgs') /\
    Forall2 (fun e e' =>
               exists de de',
                 e = JObj de /\ e' = JObj de' /\ keys de' = keys de /\
                 forall k, k <> "input" -> dict_get de' k = dict_get de k)
            orgs orgs'.
Proof using environ_url environ_port environ_path.
  intros Hauth Hjson Horgs Hin Hpost.
  destruct orgs as [|e0 orgs0].
  { rewrite (proxy_task_no_organizations W send environ io
               env_url env_port env_path environ_url environ_port
               environ_path rq w Hauth Hjson) in Hin by (now rewrite Horgs).
    now elim Hin. }
  remember (e0 :: orgs0) as orgs eqn:Heq.
  assert (Hne : orgs <> []) by (subst; discriminate).
  destruct (proxy_task_calls rq auth d orgs w Hauth Hjson Horgs Hne)
    as [(n & Hn & Hc & Hk)|(orgs' & w1 & Hall & Hc & Hk)];
    rewrite Hc in Hin.
  - apply lookup_is_not_post in Hin. congruence.
  - apply in_app_or in Hin. destruct Hin as [Hl|[<-|[]]].
    { apply lookup_is_not_post in Hl. congruence. }
    exists (dict_set d "organizations" (JList orgs')), orgs'.
    repeat split.
    + eapply dict_set_keys; eauto.
    + intros k Hk'. now apply dict_get_set_other.
    + apply dict_get_set.
    + clear - Hall. induction Hall; constructor; auto.
      eapply entry_encrypted_keeps_fields; eauto.
Qed.

(** X4: when every entry went through and the post raises, the handler
    logs the error and then returns, as if it were the coordinator's
    answer, the body of the last key lookup: [response] still holds it. *)
Theorem create_task_post_failure_returns_last_key_answer (rq : request)
    (auth : string) (d : list (string * json)) (pre pre' : list json)
    (e e' : json) (resp : response) (w w1 w2 w3 : W) (ex : exn) :
  headers_find (headers rq) "Authorization" = Some auth ->
  get_json rq = JObj d ->
  dict_get d "organizations" = Some (JList (pre ++ [e])) ->
  all_encrypted W send io url w pre w1 pre' ->
  entry_encrypted W send io url w1 e w2 e' resp ->
  send w2 (task_call url auth (forwarded d (pre' ++ [e']))) = (inl ex, w3) ->
  let run := proxy_task W send environ (Some io) rq w in
  exists key_answer,
    body_json resp = Some (JObj key_answer) /\
    result_of run = inr (Jsonify (JObj key_answer)) /\
    In (ERROR, [Lit "Proxyserver was unable to post new task!"])
       (log_records (events_of run)).
Proof using environ_url environ_port environ_path.
  intros Hauth Hjson Horgs Hpre He Hsend. cbv zeta.
  rewrite (proxy_task_run W send environ io env_url env_port env_path
             environ_url environ_port environ_path rq w Hauth Hjson Horgs)
    by (destruct pre; discriminate).
  rewrite loop_app.
  destruct (all_encrypted_loop W send io Hpre (mkLocals [] None))
    as (t1 & r1 & Hloop & _).
  rewrite Hloop. simpl loop. unfold bind.
  destruct (entry_encrypted_loop_body W send io (mkLocals pre' r1) He)
    as (t2 & Hb & _).
  simpl in Hb. simpl. rewrite Hb. unfold ret. simpl.
  rewrite Hsend.
  destruct He as [de body input ct -> Hin Ht Hs Hbody Henc ->].
  exists body. rewrite Hbody. unfold result_of, events_of. simpl.
  repeat split.
  rewrite !log_records_app. simpl.
  right. apply in_or_app. right. simpl. auto.
Qed.

End CreateTask.

(* ===================================================================== *)
(** ** What the views need before they call out *)
(* ===================================================================== *)

Section Preconditions.

Variable W : Type.
Variable send : W -> call -> (exn + response) * W.
Variable environ : string -> option string.

(** The create-task view makes an outbound call only for a request that
    is complete. *)
Lemma proxy_task_calls_need (SERVER_IO : option ClientNodeProtocol)
    (rq : request) (w : W) :
  http_calls (events_of (proxy_task W send environ SERVER_IO rq w)) <> [] ->
  (exists io, SERVER_IO = Some io) /\
  (forall name, In name ["SERVER_URL"; "SERVER_PORT"; "SERVER_PATH"] ->
                environ name <> None) /\
  (exists auth, headers_find (headers rq) "Authorization" = Some auth) /\
  exists d e rest,
    get_json rq = JObj d /\
    dict_get d "organizations" = Some (JList (e :: rest)) /\
    truthy (or_none (entry_input e)) = true.
Proof.
  intros H.
  unfold proxy_task, server_info, os_environ, headers_getitem in H.
  destruct SERVER_IO as [io|]; [|now elim H].
  destruct (environ "SERVER_URL") as [a|] eqn:E1; [|now elim H].
  destruct (environ "SERVER_PORT") as [b|] eqn:E2; [|now elim H].
  destruct (environ "SERVER_PATH") as [c|] eqn:E3; [|now elim H].
  destruct (headers_find (headers rq) "Authorization") as [auth|] eqn:Hauth;
    [|now elim H].
  destruct (get_json rq) as [| | | | |d] eqn:Hjson; try (now elim H).
  unfold py_get in H.
  destruct (dict_get d "organizations")
    as [[|[|]|n|[|ch s]|[|e rest]|[|[k v] d0]]|] eqn:Horgs;
    try (now elim H).
  - exfalso. apply H. unfold bind, ret. simpl.
    destruct (Z.eqb n 0); reflexivity.
  - destruct (truthy (or_none (entry_input e))) eqn:Ht.
    + split; [eauto|]. split.
      { intros name [<-|[<-|[<-|[]]]]; congruence. }
      split; [eauto|]. exists d, e, rest. auto.
    + exfalso. apply H. clear H.
      destruct e as [| | | | |de]; try reflexivity.
      simpl in Ht. unfold or_none in Ht.
      unfold loop, loop_body, py_get, bind, ret, raise, log, emit, events_of.
      simpl.
      destruct (dict_get de "input") as [v|]; simpl; rewrite ?Ht; reflexivity.
Qed.

(** X1: the create-task view never calls out, neither for a key nor to
    post, unless [SERVER_IO] is set, the three environment variables are
    set, the request has an [Authorization] header, its body is a JSON
    object, and [organizations] is a list whose first entry has a truthy
    [input]. *)
Theorem create_task_calls_out_only_when_complete
    (SERVER_IO : option ClientNodeProtocol) (rq : request) (w : W) :
  http_calls (events_of (proxy_task W send environ SERVER_IO rq w)) <> [] ->
  (exists io, SERVER_IO = Some io) /\
  (forall name, In name ["SERVER_URL"; "SERVER_PORT"; "SERVER_PATH"] ->
                environ name <> None) /\
  (exists auth, headers_find (headers rq) "Authorization" = Some auth) /\
  exists d e rest,
    get_json rq = JObj d /\
    dict_get d "organizations" = Some (JList (e :: rest)) /\
    truthy (or_none (entry_input e)) = true.
Proof. apply proxy_task_calls_need. Qed.


End Preconditions.

(* ===================================================================== *)
(** ** The other views *)
(* ===================================================================== *)

Section OtherViews.

Variable W : Type.
Variable send : W -> call -> (exn + response) * W.
Variable environ : string -> option string.
Variables env_url env_port env_path : string.
Hypothesis environ_url : environ "SERVER_URL" = Some env_url.
Hypothesis environ_port : environ "SERVER_PORT" = Some env_port.
Hypothesis environ_path : environ "SERVER_PATH" = Some env_path.

Local Abbreviation url := (base_url env_url env_port env_path).

Lemma server_info_set (w : W) :
  server_info W environ w = (inr url, (w, [])).
Proof using environ_url environ_port environ_path.
  unfold server_info, bind, os_environ.
  rewrite environ_url, environ_port, environ_path. reflexivity.
Qed.

(** X5: the result fetch makes one call, [GET {url}/result/{id}] with
    the [Authorization] value of the request and nothing else, and
    returns the JSON body of the answer; a request without the header
    ends in [KeyError] before any call. *)
Theorem result_fetch_forwards (rq : request) (id : Z) (w : W) :
  (forall auth resp w1 b,
     headers_find (headers rq) "Authorization" = Some auth ->
     send w (mkCall GET [Lit url; Lit "/result/"; Fmt (JNum id)] JNull []
                    [("Authorization", Some auth)]) = (inr resp, w1) ->
     body_json resp = Some b ->
     proxy_results W send environ rq id w =
       (inr (Jsonify b),
        (w1, [EvHttp (mkCall GET [Lit url; Lit "/result/"; Fmt (JNum id)]
                             JNull [] [("Authorization", Some auth)])]))) /\
  (headers_find (headers rq) "Authorization" = None ->
   proxy_results W send environ rq id w =
     (inl (KeyError "Authorization"), (w, []))).
Proof using environ_url environ_port environ_path.
  split.
  - intros auth resp w1 b Hauth Hsend Hb. unfold proxy_results.
    erewrite bind_inr by apply server_info_set. rewrite and_then_nil.
    unfold headers_getitem, try_except, bind, requests, read_response,
      response_json, result_call, ret, raise.
    rewrite Hauth, Hsend. simpl. rewrite Hb. reflexivity.
  - intros Hnone. unfold proxy_results.
    erewrite bind_inr by apply server_info_set. rewrite and_then_nil.
    unfold headers_getitem, bind, raise. now rewrite Hnone.
Qed.

(** X7: when the coordinator answers the generic forward with a JSON
    object, the view returns that object whatever the status code is;
    the status is logged as an error, with the [msg] of the answer or
    "no description...", exactly when it is above 200. *)
Theorem generic_forward_returns_object_body (rq : request)
    (central_server_path : string) (w w1 : W) (resp : response)
    (b : list (string * json)) :
  send w (proxied url rq central_server_path) = (inr resp, w1) ->
  body_json resp = Some (JObj b) ->
  let run := proxy W send environ rq central_server_path w in
  result_of run = inr (Jsonify (JObj b)) /\
  world_of run = w1 /\
  (In (ERROR, [Lit "server response code "; Fmt (JNum (status_code resp))])
      (log_records (events_of run)) <-> (200 < status_code resp)%Z) /\
  ((200 < status_code resp)%Z ->
   In (DEBUG,
       [Fmt match dict_get b "msg" with
            | Some m => m
            | None => JStr "no description..."
            end])
      (log_records (events_of run))).
Proof using environ_url environ_port environ_path.
  intros Hsend Hb. cbv zeta. unfold proxy, proxied, generic_call in *.
  erewrite bind_inr by apply server_info_set. rewrite and_then_nil.
  unfold headers_getitem, try_except, bind, requests, response_json, py_get,
    ret, raise, log, log_exn, emit, result_of, world_of, events_of.
  destruct (headers_find (headers rq) "Authorization") as [auth|]; simpl;
    simpl in Hsend; rewrite Hsend; simpl;
    (destruct (Z.ltb_spec 200 (status_code resp)) as [Hgt|Hle]; simpl;
     rewrite Hb; simpl; repeat split; auto;
     try (intros _; tauto); try lia;
     try (intros Hin;
          repeat (destruct Hin as [Hin|Hin]; try discriminate Hin);
          contradiction)).
Qed.


(** X9: the test view makes one call, a GET of the path under the base
    URL, and puts nothing of the request on it: no header, so no
    credential, no body, no parameters.  It logs nothing, and returns
    the JSON body of the answer. *)
Theorem test_view_sends_no_credential (rq : request)
    (central_server_path : string) (w : W) :
  let c := mkCall GET [Lit (url ++ "/" ++ central_server_path)%string]
                  JNull [] [] in
  let run := test W send environ rq central_server_path w in
  events_of run = [EvHttp c] /\
  (forall resp w1 b,
     send w c = (inr resp, w1) -> body_json resp = Some b ->
     result_of run = inr (Jsonify b)).
Proof using environ_url environ_port environ_path.
  cbv zeta. unfold test.
  erewrite bind_inr by apply server_info_set. rewrite and_then_nil.
  unfold bind, requests, response_json, ret, raise, events_of, result_of.
  destruct (send w _) as [[ex|resp] w1] eqn:Hsend; simpl.
  - split; [reflexivity|]. intros resp w1' b H. discriminate H.
  - destruct (body_json resp) as [b|] eqn:Hb; simpl;
      (split; [reflexivity|]);
      intros resp' w1' b' H Hb'; injection H as <- <-; congruence.
Qed.

End OtherViews.

(* ===================================================================== *)
(** ** More about the routes *)
(* ===================================================================== *)

Lemma strip_prefix_app (p s r : string) :
  strip_prefix p s = Some r -> s = (p ++ r)%string.
Proof.
  revert s. induction p as [|a p IH]; intros s; simpl.
  - now intros [= ->].
  - destruct s as [|b s]; [discriminate|].
    destruct (Ascii.eqb_spec a b) as [->|]; [|discriminate].
    intros H. now rewrite (IH _ H).
Qed.

(** What a matched rule says about the request. *)
Lemma match_rules_reaches (m p : string) (e : endpoint) :
  match_rules url_map false m p = Matched e ->
  match e with
  | ep_proxy_task => p = "/task" /\ (m = "POST" \/ m = "OPTIONS")
  | ep_proxy_results id =>
      get_like m /\
      exists digits, p = ("/result/" ++ digits)%string /\
                     int_converter digits = Some id
  | ep_test q => get_like m /\ p = ("/test/" ++ q)%string /\ q <> ""
  | ep_proxy q => get_like m /\ p = ("/" ++ q)%string /\ q <> ""
  end.
Proof.
  unfold get_like.
  assert (Hpath : forall s q, path_converter s = Some q -> s = q /\ q <> "").
  { intros s q. unfold path_converter. destruct s as [|c s]; [discriminate|].
    destruct (Ascii.eqb c "/"); [discriminate|].
    intros [= <-]. split; [reflexivity|discriminate]. }
  unfold url_map.
  change (rule_methods (Some ["POST"])) with ["POST"; "OPTIONS"].
  change (rule_methods None) with ["GET"; "HEAD"; "OPTIONS"].
  cbn -[strip_prefix int_converter path_converter String.eqb].
  destruct (String.eqb_spec p "/task") as [Hp|Hp];
  destruct (strip_prefix "/result/" p) as [r1|] eqn:S1;
  cbn -[strip_prefix int_converter path_converter String.eqb];
  try destruct (int_converter r1) as [i|] eqn:I1;
  destruct (strip_prefix "/test/" p) as [r2|] eqn:S2;
  cbn -[strip_prefix int_converter path_converter String.eqb];
  try destruct (path_converter r2) as [q2|] eqn:P2;
  destruct (strip_prefix "/" p) as [r3|] eqn:S3;
  cbn -[strip_prefix int_converter path_converter String.eqb];
  try destruct (path_converter r3) as [q3|] eqn:P3;
  cbn -[strip_prefix int_converter path_converter String.eqb];
  destruct (String.eqb_spec m "POST");
  destruct (String.eqb_spec m "OPTIONS");
  destruct (String.eqb_spec m "GET");
  destruct (String.eqb_spec m "HEAD");
  cbn -[strip_prefix int_converter path_converter String.eqb];
  intros H; try discriminate H; injection H as <-;
  repeat match goal with
  | Hs : strip_prefix _ _ = Some _ |- _ => apply strip_prefix_app in Hs
  | Hc : path_converter _ = Some _ |- _ =>
      apply Hpath in Hc; destruct Hc as [-> ?]
  end;
  first [ solve [repeat split; auto 6]
        | match goal with
          | S : p = ("/result/" ++ ?r)%string, I : int_converter ?r = Some _
            |- _ => split; [auto 6|exists r; split; [exact S|exact I]]
          end ].
Qed.


Section AppCalls.

Variable W : Type.
Variable send : W -> call -> (exn + response) * W.
Variable environ : string -> option string.
Variable io : ClientNodeProtocol.
Variables env_url env_port env_path : string.
Hypothesis environ_url : environ "SERVER_URL" = Some env_url.
Hypothesis environ_port : environ "SERVER_PORT" = Some env_port.
Hypothesis environ_path : environ "SERVER_PATH" = Some env_path.

Local Abbreviation url := (base_url env_url env_port env_path).

Lemma events_of_returned {A B} (m : M W A) (f : A -> B) (w : W) :
  events_of (bind m (fun v => ret (f v)) w) = events_of (m w).
Proof.
  unfold bind, ret, events_of.
  destruct (m w) as [[ex|a] [w1 t1]]; simpl; [reflexivity|].
  apply app_nil_r.
Qed.

Lemma proxy_results_calls (rq : request) (id : Z) (w : W) :
  Forall (fun c => c_method c = GET)
         (http_calls (events_of (proxy_results W send environ rq id w))).
Proof using environ_url environ_port environ_path.
  unfold proxy_results.
  erewrite bind_inr
    by apply (server_info_set W environ env_url env_port env_path
                environ_url environ_port environ_path).
  rewrite and_then_nil.
  unfold headers_getitem, try_except, bind, requests, read_response,
    response_json, ret, raise, log, log_exn, emit, events_of.
  destruct (headers_find (headers rq) "Authorization") as [auth|]; simpl;
    [|constructor].
  destruct (send w _) as [[ex|resp] w1]; simpl.
  - repeat constructor.
  - destruct (body_json resp); simpl; repeat constructor.
Qed.

Lemma test_calls (rq : request) (p : string) (w : W) :
  Forall (fun c => c_method c = GET)
         (http_calls (events_of (test W send environ rq p w))).
Proof using environ_url environ_port environ_path.
  unfold test.
  erewrite bind_inr
    by apply (server_info_set W environ env_url env_port env_path
                environ_url environ_port environ_path).
  rewrite and_then_nil.
  unfold bind, requests, response_json, ret, raise, events_of.
  destruct (send w _) as [[ex|resp] w1]; simpl; [repeat constructor|].
  destruct (body_json resp); simpl; repeat constructor.
Qed.

Lemma lookups_are_get (u : string) (es : list json) :
  Forall (fun c => c_method c = GET) (map (lookup u) es).
Proof. induction es; simpl; constructor; auto. Qed.

(** X12: through its routes the relay sends GET calls only, but for the
    one post of a task: no PATCH, PUT or DELETE ever leaves it, and a
    POST leaves it only for a [POST /task] request and goes to
    [{url}/task]. *)
Theorem relay_posts_tasks_only (rq : request) (w : W) :
  Forall (fun c =>
            c_method c = GET \/
            (c_method c = POST /\ c_url c = [Lit url; Lit "/task"] /\
             method rq = "POST" /\ path rq = "/task"))
         (http_calls (events_of (app W send environ (Some io) rq w))).
Proof using environ_url environ_port environ_path.
  unfold app.
  destruct (match_rules url_map false (method rq) (path rq)) as [e| |] eqn:Hm;
    try (constructor; fail).
  apply match_rules_reaches in Hm.
  destruct (String.eqb_spec (method rq) "OPTIONS") as [Ho|Ho];
    [constructor|].
  rewrite events_of_returned.
  destruct e as [|id|q|q]; simpl.
  - destruct Hm as [Hp [Hpost|Hopt]]; [|contradiction].
    destruct (http_calls (events_of
                (proxy_task W send environ (Some io) rq w))) as [|c0 cs]
      eqn:Hcalls; [constructor|].
    assert (Hne : http_calls (events_of
                    (proxy_task W send environ (Some io) rq w)) <> [])
      by (rewrite Hcalls; discriminate).
    apply proxy_task_calls_need in Hne.
    destruct Hne as (_ & _ & [auth Hauth] & d & e & rest & Hjson & Horgs & _).
    rewrite <- Hcalls.
    destruct (proxy_task_calls W send environ io env_url env_port env_path
                environ_url environ_port environ_path rq auth d (e :: rest)
                w Hauth Hjson Horgs ltac:(discriminate))
      as [(n & _ & -> & _)|(orgs' & w1 & _ & -> & _)].
    + eapply Forall_impl; [|apply lookups_are_get]. simpl. auto.
    + apply Forall_app. split.
      * eapply Forall_impl; [|apply lookups_are_get]. simpl. auto.
      * constructor; [|constructor]. right. simpl. auto.
  - eapply Forall_impl; [|apply proxy_results_calls]. simpl. auto.
  - rewrite (proxy_calls W send environ env_url env_port env_path
               environ_url environ_port environ_path).
    constructor; [|constructor]. left. simpl.
    destruct Hm as [[Hg|[Hh|Hopt]] _]; [| |contradiction].
    + now rewrite Hg.
    + now rewrite Hh.
  - eapply Forall_impl; [|apply test_calls]. simpl. auto.
Qed.

End AppCalls.

(* ===================================================================== *)
(** ** More about the permission check *)
(* ===================================================================== *)

Lemma rule_in_app (rule : option Rule) (l1 l2 : list Rule) :
  rule_in rule (l1 ++ l2) = (rule_in rule l1 || rule_in rule l2)%bool.
Proof. destruct rule; simpl; [apply existsb_app|reflexivity]. Qed.

Lemma rule_in_roles (rule : option Rule) (rs : list Role) :
  existsb (fun role => rule_in rule (role_rules role)) rs
  = rule_in rule (flat_map role_rules rs).
Proof.
  induction rs as [|r rs IH]; simpl.
  - now destruct rule.
  - now rewrite rule_in_app, IH.
Qed.

Lemma rule_in_incl (rule : option Rule) (l1 l2 : list Rule) :
  (forall x, In x l1 -> In x l2) ->
  rule_in rule l1 = true -> rule_in rule l2 = true.
Proof.
  intros Hincl. destruct rule as [r|]; simpl; [|discriminate].
  rewrite !existsb_exists. intros (x & Hx & Hid). eauto.
Qed.

(** X13: [can] looks at the rules a user holds and not at how they are
    held: its answer is that of the one membership test on the direct
    rules followed by the rules of every role, whatever the rule table
    is. *)
Theorem can_reads_effective_rules (catalog : list Rule) (u : User)
    (resource : string) (s : Scope) (o : Operation) :
  can catalog u resource s o
  = rule_in (get_by_ catalog resource s o) (effectiveRules u).
Proof.
  unfold can, effectiveRules. now rewrite rule_in_app, rule_in_roles.
Qed.

(** X14: rules only ever grant.  A user who holds every rule another
    user holds, directly or through roles, can do whatever the other
    can: no rule and no role takes a permission away. *)
Theorem can_is_monotone (catalog : list Rule) (u u' : User)
    (resource : string) (s : Scope) (o : Operation) :
  (forall x, In x (effectiveRules u) -> In x (effectiveRules u')) ->
  can catalog u resource s o = true ->
  can catalog u' resource s o = true.
Proof.
  intros Hincl. unfold can, effectiveRules in *.
  rewrite !rule_in_roles, <- !rule_in_app.
  now apply rule_in_incl.
Qed.

(* ===================================================================== *)
(** ** Passwords *)
(* ===================================================================== *)

Section PasswordFacts.

Variable unicode_isalnum : N -> bool.
Variable hash : pystr -> string.
Variable checkpw : pystr -> string -> bool.

Lemma isalnum_false (pw : pystr) :
  pw <> [] ->
  isalnum unicode_isalnum pw = false <->
  exists c, In c pw /\ char_isalnum unicode_isalnum c = false.
Proof.
  intros Hne. unfold isalnum. destruct pw as [|c0 pw]; [congruence|].
  remember (c0 :: pw) as l. clear Heql Hne. split.
  - induction l as [|c l IH]; simpl; [discriminate|].
    destruct (char_isalnum unicode_isalnum c) eqn:Hc; simpl.
    + intros H. destruct (IH H) as (x & Hx & Hf). eauto.
    + eauto.
  - intros (x & Hx & Hf).
    destruct (forallb (char_isalnum unicode_isalnum) l) eqn:Hall;
      [|reflexivity].
    rewrite forallb_forall in Hall. rewrite (Hall x Hx) in Hf. discriminate.
Qed.

(** X15: [set_password] takes a password exactly when it has 8 to 128
    characters, a digit, an uppercase and a lowercase ASCII letter and a
    character that is not alphanumeric; it then stores the hash and
    saves.  In every other case it returns a message, leaves the row as
    it was and does not save. *)
Theorem set_password_takes_strong_passwords_only (self : Login) (pw : pystr) :
  let msg := fst (fst (set_password unicode_isalnum hash self pw)) in
  let self' := snd (fst (set_password unicode_isalnum hash self pw)) in
  let saved := snd (set_password unicode_isalnum hash self pw) in
  (msg = None <->
   (8 <= length pw <= 128)%nat /\
   (exists c, In c pw /\ is_digit c = true) /\
   (exists c, In c pw /\ is_upper c = true) /\
   (exists c, In c pw /\ is_lower c = true) /\
   (exists c, In c pw /\ char_isalnum unicode_isalnum c = false)) /\
  (msg = None ->
   self' = mkLogin (Some (hash pw)) (failed_login_attempts self)
                   (last_login_attempt self) /\ saved = true) /\
  (msg <> None -> self' = self /\ saved = false).
Proof.
  cbv zeta. unfold set_password, re_search.
  destruct (Z.ltb_spec (Z.of_nat (length pw)) 8) as [Hs|Hs]; simpl.
  { repeat split; try discriminate; try congruence.
    intros ([H _] & _). lia. }
  destruct (Z.ltb_spec 128 (Z.of_nat (length pw))) as [Hl|Hl]; simpl.
  { repeat split; try discriminate; try congruence.
    intros ([_ H] & _). lia. }
  assert (Hne : pw <> []) by (destruct pw; simpl in *; [lia|discriminate]).
  destruct (existsb is_digit pw) eqn:Hd; simpl.
  2:{ repeat split; try discriminate; try congruence.
      intros (_ & (c & Hc & Hcd) & _).
      assert (existsb is_digit pw = true) by (apply existsb_exists; eauto).
      congruence. }
  destruct (existsb is_upper pw) eqn:Hu; simpl.
  2:{ repeat split; try discriminate; try congruence.
      intros (_ & _ & (c & Hc & Hcd) & _).
      assert (existsb is_upper pw = true) by (apply existsb_exists; eauto).
      congruence. }
  destruct (existsb is_lower pw) eqn:Hw; simpl.
  2:{ repeat split; try discriminate; try congruence.
      intros (_ & _ & _ & (c & Hc & Hcd) & _).
      assert (existsb is_lower pw = true) by (apply existsb_exists; eauto).
      congruence. }
  destruct (isalnum unicode_isalnum pw) eqn:Ha; simpl.
  { repeat split; try discriminate; try congruence.
    intros (_ & _ & _ & _ & Hx). apply (isalnum_false pw Hne) in Hx.
    congruence. }
  repeat split; try congruence; try lia;
    try (apply existsb_exists; assumption).
  now apply (isalnum_false pw Hne).
Qed.

(** X16: with a [checkpw] that accepts a password against its own hash,
    a password that [set_password] has taken is the one
    [check_password] accepts afterwards; and after a refused one
    [check_password] answers as it did before. *)
Theorem check_password_after_set_password (self : Login) (pw : pystr) :
  (forall p, checkpw p (hash p) = true) ->
  let msg := fst (fst (set_password unicode_isalnum hash self pw)) in
  let self' := snd (fst (set_password unicode_isalnum hash self pw)) in
  (msg = None -> check_password checkpw self' pw = true) /\
  (msg <> None ->
   forall p, check_password checkpw self' p = check_password checkpw self p).
Proof.
  intros Hbcrypt. cbv zeta. unfold set_password, check_password.
  destruct (Z.ltb (Z.of_nat (length pw)) 8); simpl;
    [split; [discriminate|reflexivity]|].
  destruct (Z.ltb 128 (Z.of_nat (length pw))); simpl;
    [split; [discriminate|reflexivity]|].
  destruct (re_search is_digit pw); simpl;
    [|split; [discriminate|reflexivity]].
  destruct (re_search is_upper pw); simpl;
    [|split; [discriminate|reflexivity]].
  destruct (re_search is_lower pw); simpl;
    [|split; [discriminate|reflexivity]].
  destruct (isalnum unicode_isalnum pw); simpl;
    [split; [discriminate|reflexivity]|].
  split; [intros _; apply Hbcrypt|congruence].
Qed.

End PasswordFacts.

(* ===================================================================== *)
(** ** Blocking after failed logins *)
(* ===================================================================== *)

Lemma seconds_range (td : Z) : (0 <= seconds td / 60 < 1440)%Z.
Proof.
  unfold seconds, day.
  pose proof (Z.mod_pos_bound td 86400000000 ltac:(lia)) as Hm.
  Z.div_mod_to_equations. lia.
Qed.

(** X17: [is_blocked] answers "blocked" only for a row whose failed
    attempts are not zero and have reached the maximum, and whose last
    attempt is less than the inactivation time ago; the minutes it then
    reports are between 1 and 1440. *)
Theorem is_blocked_only_within_the_window (self : Login)
    (now max_failed_attempts inactivation_in_minutes : Z)
    (minutes_remaining : option Z) :
  is_blocked self now max_failed_attempts inactivation_in_minutes
    = inr (true, minutes_remaining) ->
  exists n t minutes,
    failed_login_attempts self = Some n /\ n <> 0%Z /\
    (max_failed_attempts <= n)%Z /\
    last_login_attempt self = Some t /\
    (now - t < inactivation_in_minutes * 60000000)%Z /\
    minutes_remaining = Some minutes /\ (1 <= minutes <= 1440)%Z.
Proof.
  unfold is_blocked.
  destruct (timedelta (inactivation_in_minutes * 60000000)) as [e|td] eqn:Htd;
    [discriminate|].
  assert (td = (inactivation_in_minutes * 60000000)%Z) as ->.
  { unfold timedelta in Htd. destruct (_ && _)%bool; congruence. }
  destruct (failed_login_attempts self) as [n|]; [|discriminate].
  destruct (Z.eqb_spec n 0) as [Hz|Hz]; [discriminate|].
  destruct (Z.leb_spec max_failed_attempts n) as [Hmax|Hmax]; [|discriminate].
  destruct (last_login_attempt self) as [t|]; [|discriminate].
  destruct (Z.ltb_spec (now - t) (inactivation_in_minutes * 60000000))
    as [Hin|Hin]; [|discriminate].
  destruct (timedelta (inactivation_in_minutes * 60000000 - (now - t)))
    as [e|remaining]; [discriminate|].
  intros H. injection H as <-.
  exists n, t, (seconds remaining / 60 + 1)%Z.
  pose proof (seconds_range remaining). repeat split; auto; lia.
Qed.

(** X18: the minutes [is_blocked] reports.  While less than a day of
    the inactivation time remains, they are the remaining time rounded
    up to the next whole minute, so waiting them is enough.  With a day
    or more remaining, [.seconds] drops the whole days and the minutes
    fall short of the remaining time. *)
Theorem is_blocked_minutes (self : Login)
    (now max_failed_attempts inactivation_in_minutes t minutes : Z) :
  is_blocked self now max_failed_attempts inactivation_in_minutes
    = inr (true, Some minutes) ->
  last_login_attempt self = Some t ->
  let remaining := (inactivation_in_minutes * 60000000 - (now - t))%Z in
  (0 < remaining)%Z /\
  ((remaining < day)%Z ->
   ((minutes - 1) * 60000000 <= remaining < minutes * 60000000)%Z) /\
  ((day <= remaining)%Z -> (minutes * 60000000 <= remaining)%Z).
Proof.
  unfold is_blocked. intros H Hlast. rewrite Hlast in H.
  destruct (timedelta (inactivation_in_minutes * 60000000)) as [e|td] eqn:Htd;
    [discriminate|].
  assert (td = (inactivation_in_minutes * 60000000)%Z) as ->.
  { unfold timedelta in Htd. destruct (_ && _)%bool; congruence. }
  destruct (failed_login_attempts self) as [n|]; [|discriminate].
  destruct (Z.eqb n 0); [discriminate|].
  destruct (Z.leb max_failed_attempts n); [|discriminate].
  destruct (Z.ltb_spec (now - t) (inactivation_in_minutes * 60000000))
    as [Hin|Hin]; [|discriminate].
  destruct (timedelta (inactivation_in_minutes * 60000000 - (now - t)))
    as [e|remaining] eqn:Hrem; [discriminate|].
  assert (remaining = (inactivation_in_minutes * 60000000 - (now - t))%Z)
    as Hr.
  { unfold timedelta in Hrem. destruct (_ && _)%bool; congruence. }
  injection H as <-. cbv zeta. rewrite <- Hr. clear Hrem.
  assert (Hpos : (0 < remaining)%Z) by lia.
  split; [exact Hpos|]. unfold seconds, day. split.
  - intros Hday. rewrite Z.mod_small by lia.
    Z.div_mod_to_equations. lia.
  - intros Hday.
    pose proof (Z.mod_pos_bound remaining 86400000000 ltac:(lia)) as Hm.
    Z.div_mod_to_equations. lia.
Qed.

(** X19: what [is_blocked] does without a usable history.  A row whose
    failed attempts are NULL, zero or below the maximum is not blocked,
    whatever the times are.  A row that has reached the maximum but has
    no last attempt recorded makes the comparison of [None] with a
    [timedelta] raise. *)
Theorem is_blocked_without_history (self : Login)
    (now max_failed_attempts inactivation_in_minutes : Z) :
  (- 999999999 * day <= inactivation_in_minutes * 60000000
   < 1000000000 * day)%Z ->
  ((failed_login_attempts self = None \/
    failed_login_attempts self = Some 0%Z \/
    (exists n, failed_login_attempts self = Some n /\
               (n < max_failed_attempts)%Z)) ->
   is_blocked self now max_failed_attempts inactivation_in_minutes
     = inr (false, None)) /\
  (forall n,
     failed_login_attempts self = Some n -> n <> 0%Z ->
     (max_failed_attempts <= n)%Z ->
     last_login_attempt self = None ->
     is_blocked self now max_failed_attempts inactivation_in_minutes
       = inl NoneCompared).
Proof.
  intros Hrange. unfold is_blocked, timedelta.
  destruct (Z.leb_spec (- 999999999 * day) (inactivation_in_minutes * 60000000));
    [|lia].
  destruct (Z.ltb_spec (inactivation_in_minutes * 60000000) (1000000000 * day));
    [|lia].
  simpl. split.
  - intros [-> | [-> | (n & -> & Hn)]]; try reflexivity.
    destruct (Z.eqb n 0); [reflexivity|].
    destruct (Z.leb_spec max_failed_attempts n); [lia|reflexivity].
  - intros n -> Hz Hmax ->.
    destruct (Z.eqb_spec n 0); [contradiction|].
    destruct (Z.leb_spec max_failed_attempts n); [reflexivity|lia].
Qed.

(* ===================================================================== *)
(** ** More about the endpoint guard *)
(* ===================================================================== *)

Lemma str_eq_true (v : json) (s : string) : str_eq v s = true -> v = JStr s.
Proof.
  destruct v; simpl; try discriminate.
  intros H. apply String.eqb_eq in H. now subst.
Qed.

(** X20: the decorator runs the view at most once, and only for a kind
    of the allow-set.  Either it raises before the view, with the same
    exception for every view, or it runs the view on a [g] whose type is
    the [client_type] of the token and is in [types], with exactly one
    of [g.user], [g.node] and [g.container] set: the row of that kind
    with its [last_seen] at the clock, or the identity of the container
    with the table untouched.  [obtain_auth] then returns that
    principal, never [None]. *)
Theorem guard_runs_the_view_for_allowed_kinds_only (types : list string)
    (identity : json) (claims : list (string * json))
    (request_url request_method : string) (utcnow : Z) (db : DB) :
  (exists e db' t,
     forall A (fn : G -> M DB A),
       only_for types fn identity claims request_url request_method utcnow db
       = (inl e, (db', t))) \/
  (exists g db' t,
     (forall A (fn : G -> M DB A),
        only_for types fn identity claims request_url request_method utcnow
                 db
        = and_then t (fn g db')) /\
     dict_get claims "client_type" = Some (g_type g) /\
     existsb (str_eq (g_type g)) types = true /\
     ((exists u, g = mkG (JStr "user") (Some u) None None /\
                 type u = "user" /\ last_seen u = utcnow /\
                 obtain_auth g = Some (AuthRow u)) \/
      (exists n, g = mkG (JStr "node") None (Some n) None /\
                 type n = "node" /\ last_seen n = utcnow /\
                 obtain_auth g = Some (AuthRow n)) \/
      (g = mkG (JStr "container") None None (Some identity) /\
       obtain_auth g = Some (AuthDict identity) /\ db' = db))).
Proof.
  destruct (dict_get claims "client_type") as [v|] eqn:Hc.
  2:{ left. do 3 eexists. intros A fn. unfold only_for. rewrite Hc.
      reflexivity. }
  destruct (existsb (str_eq v) types) eqn:Hin.
  2:{ left. do 3 eexists. intros A fn. unfold only_for, bind, ret.
      rewrite Hc. simpl. rewrite Hin. reflexivity. }
  assert (Hprefix : forall A (fn : G -> M DB A),
            only_for types fn identity claims request_url request_method
                     utcnow db
            = (if str_eq v "user" then
                 user <- get_and_update_authenticatable_info utcnow identity ;;
                 py_assert (str_eq v (type user)) ;;;
                 log DEBUG [Lit "Received request from user ";
                            Lit (label user); Lit " (";
                            Fmt (JNum (id user)); Lit ")"] ;;;
                 fn (mkG v (Some user) None None)
               else if str_eq v "node" then
                 node <- get_and_update_authenticatable_info utcnow identity ;;
                 py_assert (str_eq v (type node)) ;;;
                 log DEBUG [Lit "Received request from node ";
                            Lit (label node); Lit " (";
                            Fmt (JNum (id node)); Lit ")"] ;;;
                 fn (mkG v None (Some node) None)
               else if str_eq v "container" then
                 node_id <- py_getitem identity "node_id" ;;
                 task_id <- py_getitem identity "task_id" ;;
                 log DEBUG
                   [Lit "Received request from container with node id ";
                    Fmt node_id; Lit " and task id "; Fmt task_id] ;;;
                 fn (mkG v None None (Some identity))
               else raise (PyException [Lit "Unknown entity: "; Fmt v])) db).
  { intros A fn. unfold only_for. rewrite Hc.
    erewrite bind_inr by reflexivity. rewrite and_then_nil. rewrite Hin.
    reflexivity. }
  assert (Hrow :
            (exists e, get_and_update_authenticatable_info utcnow identity db
                       = (inl e, (db, []))) \/
            (exists row,
               get_and_update_authenticatable_info utcnow identity db
               = (inr (mkAuthenticatable (id row) (type row) (label row)
                                         utcnow),
                  (seen utcnow row db, [])))).
  { unfold get_and_update_authenticatable_info, Authenticatable_get, save,
      seen, bind, ret.
    destruct identity as [| |i| | |]; try (left; eexists; reflexivity).
    destruct (find (fun a => Z.eqb (id a) i) db) as [row|];
      [right; exists row; reflexivity|left; eexists; reflexivity]. }
  destruct (str_eq v "user") eqn:Hu.
  { apply str_eq_true in Hu. subst v.
    destruct Hrow as [(e & Hg)|(row & Hg)].
    - left. exists e, db, []. intros A fn. rewrite Hprefix.
      erewrite bind_inl; [reflexivity|exact Hg].
    - destruct (String.eqb_spec "user" (type row)) as [Ht|Ht].
      + right.
        exists (mkG (JStr "user")
                    (Some (mkAuthenticatable (id row) (type row) (label row)
                                             utcnow)) None None),
          (seen utcnow row db),
          [EvLog DEBUG [Lit "Received request from user "; Lit (label row);
                        Lit " ("; Fmt (JNum (id row)); Lit ")"]].
        repeat split; auto.
        * intros A fn. rewrite Hprefix.
          erewrite bind_inr; [|exact Hg]. rewrite and_then_nil.
          cbv beta. unfold py_assert, str_eq. cbn [type].
          rewrite (proj2 (String.eqb_eq "user" (type row)) Ht).
          unfold bind, ret, log, emit, and_then.
          destruct (fn _ _) as [r [w2 t2]]. reflexivity.
        * left. eexists. repeat split. simpl. now symmetry.
      + left. exists (AssertionError ""), (seen utcnow row db), [].
        intros A fn. rewrite Hprefix.
        erewrite bind_inr; [|exact Hg]. rewrite and_then_nil.
        cbv beta. unfold py_assert, str_eq. cbn [type].
        rewrite (proj2 (String.eqb_neq "user" (type row)) Ht).
        reflexivity. }
  destruct (str_eq v "node") eqn:Hn.
  { apply str_eq_true in Hn. subst v.
    destruct Hrow as [(e & Hg)|(row & Hg)].
    - left. exists e, db, []. intros A fn. rewrite Hprefix.
      erewrite bind_inl; [reflexivity|exact Hg].
    - destruct (String.eqb_spec "node" (type row)) as [Ht|Ht].
      + right.
        exists (mkG (JStr "node") None
                    (Some (mkAuthenticatable (id row) (type row) (label row)
                                             utcnow)) None),
          (seen utcnow row db),
          [EvLog DEBUG [Lit "Received request from node "; Lit (label row);
                        Lit " ("; Fmt (JNum (id row)); Lit ")"]].
        repeat split; auto.
        * intros A fn. rewrite Hprefix.
          erewrite bind_inr; [|exact Hg]. rewrite and_then_nil.
          cbv beta. unfold py_assert, str_eq. cbn [type].
          rewrite (proj2 (String.eqb_eq "node" (type row)) Ht).
          unfold bind, ret, log, emit, and_then.
          destruct (fn _ _) as [r [w2 t2]]. reflexivity.
        * right. left. eexists. repeat split. simpl. now symmetry.
      + left. exists (AssertionError ""), (seen utcnow row db), [].
        intros A fn. rewrite Hprefix.
        erewrite bind_inr; [|exact Hg]. rewrite and_then_nil.
        cbv beta. unfold py_assert, str_eq. cbn [type].
        rewrite (proj2 (String.eqb_neq "node" (type row)) Ht).
        reflexivity. }
  destruct (str_eq v "container") eqn:Hk.
  2:{ left. do 3 eexists. intros A fn. rewrite Hprefix. reflexivity. }
  apply str_eq_true in Hk. subst v.
  destruct identity as [| | | | |d];
    try (left; do 3 eexists; intros A fn; rewrite Hprefix; reflexivity).
  destruct (dict_get d "node_id") as [node_id|] eqn:Hnode.
  2:{ left. do 3 eexists. intros A fn. rewrite Hprefix.
      unfold bind, py_getitem. simpl. rewrite Hnode. reflexivity. }
  destruct (dict_get d "task_id") as [task_id|] eqn:Htask.
  2:{ left. do 3 eexists. intros A fn. rewrite Hprefix.
      unfold bind, py_getitem, ret. simpl. rewrite Hnode, Htask.
      reflexivity. }
  right.
  exists (mkG (JStr "container") None None (Some (JObj d))), db,
    [EvLog DEBUG [Lit "Received request from container with node id ";
                  Fmt node_id; Lit " and task id "; Fmt task_id]].
  repeat split; auto.
  - intros A fn. rewrite Hprefix.
    unfold bind, ret, py_getitem, log, emit, and_then. simpl.
    rewrite Hnode, Htask. simpl.
    destruct (fn _ _) as [r [w2 t2]]. reflexivity.
  - right. right. repeat split.
    unfold obtain_auth. simpl. destruct d; [discriminate|reflexivity].
Qed.

(** X21: the decorator writes [last_seen] before it checks the kind.  A
    token that claims the kind "user" (or "node") with the id of a row
    of another kind is refused with [AssertionError] and the view does
    not run, but the row has its [last_seen] set to the clock. *)
Theorem guard_marks_the_row_before_it_checks_the_kind {A}
    (types : list string) (fn : G -> M DB A) (kind : string) (i : Z)
    (claims : list (string * json)) (request_url request_method : string)
    (utcnow : Z) (db : DB) (row : Authenticatable) :
  kind = "user" \/ kind = "node" ->
  dict_get claims "client_type" = Some (JStr kind) ->
  In kind types ->
  find (fun a => Z.eqb (id a) i) db = Some row ->
  type row <> kind ->
  only_for types fn (JNum i) claims request_url request_method utcnow db
  = (inl (AssertionError ""), (seen utcnow row db, [])).
Proof.
  intros Hkind Hc Hin Hrow Htype.
  assert (Hex : existsb (str_eq (JStr kind)) types = true).
  { apply existsb_exists. exists kind. split; [exact Hin|].
    simpl. apply String.eqb_refl. }
  assert (Hne : kind <> type row) by congruence.
  assert (Hg : get_and_update_authenticatable_info utcnow (JNum i) db
               = (inr (mkAuthenticatable (id row) (type row) (label row)
                                         utcnow),
                  (seen utcnow row db, []))).
  { unfold get_and_update_authenticatable_info, Authenticatable_get, save,
      seen, bind, ret. rewrite Hrow. reflexivity. }
  unfold only_for. rewrite Hc.
  erewrite bind_inr by reflexivity. rewrite and_then_nil. rewrite Hex.
  change (negb true) with false. cbv beta iota.
  destruct Hkind as [-> | ->].
  - change (str_eq (JStr "user") "user") with true. cbv iota.
    erewrite bind_inr; [|exact Hg]. rewrite and_then_nil.
    cbv beta. unfold py_assert, str_eq. cbn [type].
    rewrite (proj2 (String.eqb_neq "user" (type row)) Hne). reflexivity.
  - change (str_eq (JStr "node") "user") with false.
    change (str_eq (JStr "node") "node") with true. cbv iota.
    erewrite bind_inr; [|exact Hg]. rewrite and_then_nil.
    cbv beta. unfold py_assert, str_eq. cbn [type].
    rewrite (proj2 (String.eqb_neq "node" (type row)) Hne). reflexivity.
Qed.

(** X22: the guard for containers asks the identity for [node_id] and
    [task_id] only.  A container token without [organization_id] passes
    it, the table untouched, and a view that asks for the organization
    ends in [KeyError]. *)
Theorem container_token_without_organization (organization : Authenticatable -> option Z)
    (d : list (string * json)) (node_id task_id : json)
    (claims : list (string * json)) (request_url request_method : string)
    (utcnow : Z) (db : DB) :
  dict_get claims "client_type" = Some (JStr "container") ->
  dict_get d "node_id" = Some node_id ->
  dict_get d "task_id" = Some task_id ->
  dict_get d "organization_id" = None ->
  with_container (obtain_organization_id organization) (JObj d) claims
                 request_url request_method utcnow db
  = (inl (KeyError "organization_id"),
     (db, [EvLog DEBUG [Lit "Received request from container with node id ";
                        Fmt node_id; Lit " and task id "; Fmt task_id]])).
Proof.
  intros Hc Hnode Htask Horg.
  unfold with_container, only_for, obtain_organization_id, py_getitem, bind,
    ret, raise, log, emit.
  rewrite Hc. simpl. rewrite Hnode, Htask. simpl. rewrite Horg. reflexivity.
Qed.

(* ===================================================================== *)
(** ** More about the generic view *)
(* ===================================================================== *)

Section GenericView.

Variable W : Type.
Variable send : W -> call -> (exn + response) * W.
Variable environ : string -> option string.
Variables env_url env_port env_path : string.
Hypothesis environ_url : environ "SERVER_URL" = Some env_url.
Hypothesis environ_port : environ "SERVER_PORT" = Some env_port.
Hypothesis environ_path : environ "SERVER_PATH" = Some env_path.

Local Abbreviation url := (base_url env_url env_port env_path).


End GenericView.

(* ===================================================================== *)
(** ** The further theorems at work *)
(* ===================================================================== *)

Lemma create_task_calls_out_only_when_complete_witness :
  (exists io, Some Demo.server_io = Some io) /\
  (forall name, In name ["SERVER_URL"; "SERVER_PORT"; "SERVER_PATH"] ->
                Demo.environ name <> None) /\
  (exists auth,
     headers_find (headers (Demo.task_request [Demo.organization 1 "a"]))
                  "Authorization" = Some auth) /\
  exists d e rest,
    get_json (Demo.task_request [Demo.organization 1 "a"]) = JObj d /\
    dict_get d "organizations" = Some (JList (e :: rest)) /\
    truthy (or_none (entry_input e)) = true.
Proof.
  apply (create_task_calls_out_only_when_complete nat Demo.send Demo.environ
           (Some Demo.server_io) (Demo.task_request [Demo.organization 1 "a"])
           0%nat).
  vm_compute. discriminate.
Defined.

Lemma create_task_trace_shape_witness :
  let orgs := [Demo.organization 1 "a"; Demo.organization 2 "b"] in
  let run := proxy_task nat Demo.send Demo.environ (Some Demo.server_io)
               (Demo.task_request orgs) 0%nat in
  exists n posts,
    (n <= length orgs)%nat /\
    http_calls (events_of run) =
      map (lookup Demo.base) (firstn n orgs) ++ posts /\
    (length (encrypt_calls (events_of run)) <= n)%nat /\
    (posts = [] \/
     n = length orgs /\
     exists sent, posts = [task_call Demo.base "Bearer t0k3n" sent]).
Proof.
  cbv zeta.
  apply (create_task_trace_shape nat Demo.send Demo.environ Demo.server_io
           "http://server" "5000" "/api" eq_refl eq_refl eq_refl
           (Demo.task_request [Demo.organization 1 "a"; Demo.organization 2 "b"])
           "Bearer t0k3n"
           (Demo.payload [Demo.organization 1 "a"; Demo.organization 2 "b"])
           [Demo.organization 1 "a"; Demo.organization 2 "b"] 0%nat);
    reflexivity.
Defined.

Lemma create_task_changes_inputs_only_witness :
  let orgs := [Demo.organization 1 "a"; Demo.organization 2 "b"] in
  let c := task_call Demo.base "Bearer t0k3n"
             (forwarded (Demo.payload orgs)
                [Demo.organization 1 "pubA:b"; Demo.organization 2 "pubB:c"]) in
  exists d' orgs',
    c_json c = JObj d' /\
    keys d' = keys (Demo.payload orgs) /\
    (forall k, k <> "organizations" ->
               dict_get d' k = dict_get (Demo.payload orgs) k) /\
    dict_get d' "organizations" = Some (JList orgs') /\
    Forall2 (fun e e' =>
               exists de de',
                 e = JObj de /\ e' = JObj de' /\ keys de' = keys de /\
                 forall k, k <> "input" -> dict_get de' k = dict_get de k)
            orgs orgs'.
Proof.
  cbv zeta.
  apply (create_task_changes_inputs_only nat Demo.send Demo.environ
           Demo.server_io "http://server" "5000" "/api"
           eq_refl eq_refl eq_refl
           (Demo.task_request [Demo.organization 1 "a"; Demo.organization 2 "b"])
           "Bearer t0k3n"
           (Demo.payload [Demo.organization 1 "a"; Demo.organization 2 "b"])
           [Demo.organization 1 "a"; Demo.organization 2 "b"] 0%nat).
  - reflexivity.
  - reflexivity.
  - reflexivity.
  - right. right. left. reflexivity.
  - reflexivity.
Defined.

Lemma create_task_post_failure_returns_last_key_answer_witness :
  let run := proxy_task nat Sample.send_no_task Demo.environ
               (Some Demo.server_io)
               (Demo.task_request
                  [Demo.organization 1 "a"; Demo.organization 2 "b"])
               0%nat in
  exists key_answer,
    body_json (mkResponse 200 (Some (JObj [("id", JNum 2);
                                           ("public_key", JStr "pubB")])))
      = Some (JObj key_answer) /\
    result_of run = inr (Jsonify (JObj key_answer)) /\
    In (ERROR, [Lit "Proxyserver was unable to post new task!"])
       (log_records (events_of run)).
Proof.
  cbv zeta.
  apply (create_task_post_failure_returns_last_key_answer nat
           Sample.send_no_task Demo.environ Demo.server_io
           "http://server" "5000" "/api" eq_refl eq_refl eq_refl
           (Demo.task_request [Demo.organization 1 "a"; Demo.organization 2 "b"])
           "Bearer t0k3n"
           (Demo.payload [Demo.organization 1 "a"; Demo.organization 2 "b"])
           [Demo.organization 1 "a"] [Demo.organization 1 "pubA:b"]
           (Demo.organization 2 "b") (Demo.organization 2 "pubB:c")
           (mkResponse 200 (Some (JObj [("id", JNum 2);
                                        ("public_key", JStr "pubB")])))
           0%nat 1%nat 2%nat 3%nat (RequestException "timeout")).
  - reflexivity.
  - reflexivity.
  - reflexivity.
  - eapply all_encrypted_cons with (w1 := 1%nat).
    + eapply entry_encrypted_intro with (input := JStr "a"); try reflexivity.
    + apply all_encrypted_nil.
  - eapply entry_encrypted_intro with (input := JStr "b"); try reflexivity.
  - reflexivity.
Defined.

Lemma result_fetch_forwards_witness :
  proxy_results nat Demo.send Demo.environ Demo.result_request 42 0%nat =
    (inr (Jsonify (JObj [("result", JStr "done")])),
     (1%nat,
      [EvHttp (mkCall GET [Lit Demo.base; Lit "/result/"; Fmt (JNum 42)]
                      JNull [] [("Authorization", Some "Bearer t0k3n")])])) /\
  proxy_results nat Demo.send Demo.environ Demo.anonymous_request 42 0%nat =
    (inl (KeyError "Authorization"), (0%nat, [])).
Proof.
  split.
  - apply (proj1 (result_fetch_forwards nat Demo.send Demo.environ
             "http://server" "5000" "/api" eq_refl eq_refl eq_refl
             Demo.result_request 42 0%nat)
             "Bearer t0k3n"
             (mkResponse 200 (Some (JObj [("result", JStr "done")]))));
      reflexivity.
  - apply (proj2 (result_fetch_forwards nat Demo.send Demo.environ
             "http://server" "5000" "/api" eq_refl eq_refl eq_refl
             Demo.anonymous_request 42 0%nat)).
    reflexivity.
Defined.


Lemma generic_forward_returns_object_body_witness :
  let run := proxy nat Demo.send Demo.environ Demo.anonymous_request
               "collaboration" 0%nat in
  result_of run = inr (Jsonify (JObj [("path", JStr "collaboration")])) /\
  world_of run = 1%nat /\
  (In (ERROR, [Lit "server response code "; Fmt (JNum 200)])
      (log_records (events_of run)) <-> (200 < 200)%Z) /\
  ((200 < 200)%Z ->
   In (DEBUG, [Fmt (JStr "no description...")])
      (log_records (events_of run))).
Proof.
  cbv zeta.
  apply (generic_forward_returns_object_body nat Demo.send Demo.environ
           "http://server" "5000" "/api" eq_refl eq_refl eq_refl
           Demo.anonymous_request "collaboration" 0%nat 1%nat
           (mkResponse 200 (Some (JObj [("path", JStr "collaboration")])))
           [("path", JStr "collaboration")]);
    reflexivity.
Defined.


Lemma test_view_sends_no_credential_witness :
  let c := mkCall GET [Lit (Demo.base ++ "/" ++ "version")%string]
                  JNull [] [] in
  let run := test nat Demo.send Demo.environ Demo.result_request "version"
               0%nat in
  events_of run = [EvHttp c] /\
  (forall resp w1 b,
     Demo.send 0%nat c = (inr resp, w1) -> body_json resp = Some b ->
     result_of run = inr (Jsonify b)).
Proof.
  cbv zeta.
  apply (test_view_sends_no_credential nat Demo.send Demo.environ
           "http://server" "5000" "/api" eq_refl eq_refl eq_refl
           Demo.result_request "version" 0%nat).
Defined.



Lemma relay_posts_tasks_only_witness :
  let rq := Demo.task_request [Demo.organization 1 "a"] in
  Forall (fun c =>
            c_method c = GET \/
            (c_method c = POST /\
             c_url c = [Lit Demo.base; Lit "/task"] /\
             method rq = "POST" /\ path rq = "/task"))
         (http_calls
            (events_of (app nat Demo.send Demo.environ (Some Demo.server_io)
                            rq 0%nat))).
Proof.
  cbv zeta.
  apply (relay_posts_tasks_only nat Demo.send Demo.environ Demo.server_io
           "http://server" "5000" "/api" eq_refl eq_refl eq_refl
           (Demo.task_request [Demo.organization 1 "a"]) 0%nat).
Defined.

Lemma can_is_monotone_witness :
  can Demo.catalog Sample.bob "task" Organization Create = true.
Proof.
  apply (can_is_monotone Demo.catalog Demo.alice Sample.bob
           "task" Organization Create).
  - intros x Hx. simpl in Hx. destruct Hx as [<-|[<-|[]]]; simpl; auto.
  - reflexivity.
Defined.

Lemma set_password_takes_strong_passwords_only_witness :
  fst (fst (set_password Sample.no_unicode Sample.toy_hash Sample.locked
                         Sample.strong)) = None /\
  snd (fst (set_password Sample.no_unicode Sample.toy_hash Sample.locked
                         Sample.strong))
    = mkLogin (Some "Passw0rd!$") (Some 5%Z) (Some 0%Z) /\
  snd (set_password Sample.no_unicode Sample.toy_hash Sample.locked
                    Sample.strong) = true.
Proof.
  destruct (set_password_takes_strong_passwords_only Sample.no_unicode
              Sample.toy_hash Sample.locked Sample.strong)
    as (Hiff & Hyes & _).
  assert (Hnone : fst (fst (set_password Sample.no_unicode Sample.toy_hash
                                         Sample.locked Sample.strong)) = None)
    by reflexivity.
  split; [exact Hnone|]. exact (Hyes Hnone).
Defined.

Lemma check_password_after_set_password_witness :
  check_password Sample.toy_checkpw
    (snd (fst (set_password Sample.no_unicode Sample.toy_hash Sample.locked
                            Sample.strong)))
    Sample.strong = true.
Proof.
  apply (proj1 (check_password_after_set_password Sample.no_unicode
                  Sample.toy_hash Sample.toy_checkpw Sample.locked
                  Sample.strong
                  (fun p => String.eqb_refl (Sample.toy_hash p)))).
  reflexivity.
Defined.

Lemma is_blocked_only_within_the_window_witness :
  exists n t minutes,
    failed_login_attempts Sample.locked = Some n /\ n <> 0%Z /\
    (3 <= n)%Z /\
    last_login_attempt Sample.locked = Some t /\
    (60000000 - t < 10 * 60000000)%Z /\
    Some 10%Z = Some minutes /\ (1 <= minutes <= 1440)%Z.
Proof.
  apply (is_blocked_only_within_the_window Sample.locked 60000000 3 10
           (Some 10%Z)).
  reflexivity.
Defined.

Lemma is_blocked_minutes_witness :
  (0 < 10 * 60000000 - (60000000 - 0))%Z /\
  ((10 * 60000000 - (60000000 - 0) < day)%Z ->
   ((10 - 1) * 60000000 <= 10 * 60000000 - (60000000 - 0)
    < 10 * 60000000)%Z) /\
  ((day <= 10 * 60000000 - (60000000 - 0))%Z ->
   (10 * 60000000 <= 10 * 60000000 - (60000000 - 0))%Z).
Proof.
  apply (is_blocked_minutes Sample.locked 60000000 3 10 0 10);
    reflexivity.
Defined.

Lemma is_blocked_without_history_witness :
  is_blocked (mkLogin None (Some 2%Z) None) 60000000 3 10
    = inr (false, None) /\
  is_blocked Sample.never_tried 60000000 3 10 = inl NoneCompared.
Proof.
  split.
  - apply (proj1 (is_blocked_without_history (mkLogin None (Some 2%Z) None)
                    60000000 3 10 ltac:(unfold day; lia))).
    right. right. exists 2%Z. split; [reflexivity|lia].
  - apply (proj2 (is_blocked_without_history Sample.never_tried
                    60000000 3 10 ltac:(unfold day; lia)) 5%Z);
      try reflexivity; lia.
Defined.

Lemma guard_marks_the_row_before_it_checks_the_kind_witness :
  only_for ["user"; "node"] (fun g : G => @ret DB unit tt) (JNum 7)
           [("client_type", JStr "user")] "http://server/api/task" "GET"
           1000 Sample.table
  = (inl (AssertionError ""),
     (seen 1000 (mkAuthenticatable 7 "node" "node-7" 0) Sample.table, [])).
Proof.
  apply (guard_marks_the_row_before_it_checks_the_kind ["user"; "node"]
           (fun g : G => @ret DB unit tt) "user" 7
           [("client_type", JStr "user")] "http://server/api/task" "GET"
           1000 Sample.table (mkAuthenticatable 7 "node" "node-7" 0)).
  - left. reflexivity.
  - reflexivity.
  - simpl. auto.
  - reflexivity.
  - discriminate.
Defined.

Lemma container_token_without_organization_witness :
  with_container (obtain_organization_id (fun _ => Some 1%Z))
                 (JObj [("node_id", JNum 7); ("task_id", JNum 3)])
                 [("client_type", JStr "container")]
                 "http://server/api/task" "GET" 1000 Sample.table
  = (inl (KeyError "organization_id"),
     (Sample.table,
      [EvLog DEBUG [Lit "Received request from container with node id ";
                    Fmt (JNum 7); Lit " and task id "; Fmt (JNum 3)]])).
Proof.
  apply (container_token_without_organization (fun _ => Some 1%Z)
           [("node_id", JNum 7); ("task_id", JNum 3)] (JNum 7) (JNum 3)
           [("client_type", JStr "container")] "http://server/api/task" "GET"
           1000 Sample.table); reflexivity.
Defined.
